(** * A shallow embedding of the jumpbox curses menu engine

    Sources: [src/jumpbox/jumpbox.py] (classes [Jumpbox], [MenuItem],
    [ExitItem]), [src/jumpbox/submenu_item.py] ([SubmenuItem]),
    [src/jumpbox/external_item.py] ([ExternalItem], [QuickConnect]),
    [src/jumpbox/netbox_item.py] ([DeviceItem], [SitesItem], [SearchItem])
    and [src/jumpbox/netbox_api.py] ([format_sites], [format_devices],
    [get_devices]).

    Modelling choices:
    - Python objects are kept in a store indexed by [nat]; a menu
      ([Jumpbox] instance) is a record, a reference to a menu is its index.
    - The curses library is external: each curses call the code makes is
      recorded, in order, in the [trace] of the world.  Curses calls are
      assumed to succeed; Python-level failures of the code itself
      (unbound local, attribute access on [None], bad index) are modelled.
    - Keyboard input is a list of events consumed by [getch]; a resize
      event also changes the terminal size seen by [getmaxyx].  The search
      string a [SearchItem] reads and the NetBox API's answer to it form
      one further event.
    - The effects are threaded through a small state and error monad [M]. *)

From Stdlib Require Import ZArith List String Ascii Bool Lia.
Import ListNotations.

Open Scope Z_scope.

(** ** Python helpers *)

Module Py.

(** Decimal digits of a non-negative integer, with a fuel bound. *)
Fixpoint digits (fuel : nat) (z : Z) (acc : string) : string :=
  match fuel with
  | O => acc
  | S f =>
      let acc' := String (ascii_of_nat (48 + Z.to_nat (z mod 10))) acc in
      if z <? 10 then acc' else digits f (z / 10) acc'
  end.

(** [str(z)] / ["%d" % z] on an integer. *)
Definition str_int (z : Z) : string :=
  if z <? 0
  then String "-" (digits (S (Z.to_nat (Z.log2 (- z)))) (- z) EmptyString)
  else digits (S (Z.to_nat (Z.log2 z))) z EmptyString.

(** ["%s" % x] for an optional string ([None] prints as "None"). *)
Definition str_opt (s : option string) : string :=
  match s with
  | Some t => t
  | None => "None"
  end.

(** [ord(s)]: defined on strings of length one only. *)
Definition ord (s : string) : option Z :=
  match s with
  | String c EmptyString => Some (Z.of_nat (nat_of_ascii c))
  | _ => None
  end.

(** [l[i]] with Python's negative indices; [None] is an IndexError. *)
Definition getitem {A} (l : list A) (i : Z) : option A :=
  if i <? 0 then
    let j := Z.of_nat (List.length l) + i in
    if j <? 0 then None else nth_error l (Z.to_nat j)
  else nth_error l (Z.to_nat i).

End Py.

(** Key codes of the curses module and of the characters the code tests. *)
Definition KEY_DOWN : Z := 258.
Definition KEY_UP : Z := 259.
Definition KEY_LEFT : Z := 260.
Definition KEY_RIGHT : Z := 261.
Definition KEY_RESIZE : Z := 410.
Definition ord_newline : Z := 10.
Definition ord_0 : Z := 48.
Definition ord_1 : Z := 49.
Definition ord_9 : Z := 57.

(** The Python exceptions the code can raise. *)
Inductive pyerr := UnboundLocalError | AttributeError | IndexError | TypeError.

(** ** The NetBox API helpers

    [src/jumpbox/netbox_api.py]: [format_sites] and [format_devices] clean
    the decoded JSON of the API before [main] builds the menus from it.
    The HTTP calls are not modelled. *)

(** A site of the API's JSON response, with the fields [main] and
    [format_sites] read. *)
Record site := mkSite {
  site_name : string;
  site_facility : string;
  site_slug : string;
  count_devices : Z
}.

(** [data.pop(index)] for an index in range. *)
Definition pop_at {A} (l : list A) (i : nat) : list A := firstn i l ++ skipn (S i) l.

(** The loop of [format_sites]: [enumerate(data)] reads [data[index]] from
    the list as it is now (a [pop] shifts the rest down) and stops once
    [index] reaches the current length; [fuel] bounds the iterations. *)
Fixpoint format_sites_loop (fuel : nat) (index : nat) (data : list site) : list site :=
  match fuel with
  | O => data
  | S f =>
      match nth_error data index with
      | None => data
      | Some item =>
          let data' := if count_devices item <=? 0 then pop_at data index else data in
          format_sites_loop f (S index) data'
      end
  end.

(** [NetboxAPI.format_sites]. *)
Definition format_sites (data : list site) : list site :=
  format_sites_loop (S (List.length data)) 0 data.

(** What the loop of [format_sites] keeps: a site without devices is
    removed, and the site that moves into its place is never examined. *)
Fixpoint sites_kept (l : list site) : list site :=
  match l with
  | [] => []
  | x :: r =>
      if count_devices x <=? 0
      then match r with [] => [] | y :: r' => y :: sites_kept r' end
      else x :: sites_kept r
  end.

(** [item['count_devices'] > 0]. *)
Definition has_devices (s : site) : bool := 0 <? count_devices s.

(** No two adjacent sites both lack devices. *)
Fixpoint no_adjacent_empty (l : list site) : bool :=
  match l with
  | x :: ((y :: _) as r) => (has_devices x || has_devices y) && no_adjacent_empty r
  | _ => true
  end.

(** *** The regular expressions of [format_devices]

    Python's [re] on the two patterns the code uses, ['[/]\d+$'] and
    ['-\d$']: a pattern is a list of single-character atoms ([\d] is
    [0-9] under Python 2), one-or-more repetitions and [$] (the end of the
    string, or just before a final newline).  [match_here] is the
    backtracking matcher, [search] is [re.search], [sub] is [re.sub] with
    an empty replacement (non-overlapping matches, left to right). *)
Module Re.

Inductive atom := AChar (c : ascii) | ADigit.

Inductive rx := RAtom (a : atom) | RPlus (a : atom) | REnd.

(** [\d]. *)
Definition is_digit (c : ascii) : bool :=
  (48 <=? nat_of_ascii c)%nat && (nat_of_ascii c <=? 57)%nat.

Definition atom_ok (a : atom) (c : ascii) : bool :=
  match a with AChar c' => Ascii.eqb c c' | ADigit => is_digit c end.

(** ['\n']. *)
Definition newline : ascii := Ascii.ascii_of_nat 10.

(** Greedy repetition of atom [a] followed by the continuation [k]. *)
Fixpoint star (a : atom) (k : list ascii -> option (list ascii)) (s : list ascii)
  : option (list ascii) :=
  match s with
  | c :: s' =>
      if atom_ok a c
      then match star a k s' with Some r => Some r | None => k s end
      else k s
  | [] => k []
  end.

(** A match of pattern [p] at the start of [s]: the rest of [s] after it. *)
Fixpoint match_here (p : list rx) (s : list ascii) : option (list ascii) :=
  match p with
  | [] => Some s
  | RAtom a :: p' =>
      match s with
      | c :: s' => if atom_ok a c then match_here p' s' else None
      | [] => None
      end
  | RPlus a :: p' =>
      match s with
      | c :: s' => if atom_ok a c then star a (match_here p') s' else None
      | [] => None
      end
  | REnd :: p' =>
      match s with
      | [] => match_here p' s
      | [c] => if Ascii.eqb c newline then match_here p' s else None
      | _ => None
      end
  end.

(** [re.search(p, s) is not None]. *)
Fixpoint search (p : list rx) (s : list ascii) : bool :=
  match match_here p s with
  | Some _ => true
  | None => match s with [] => false | _ :: s' => search p s' end
  end.

(** The scan of [re.sub(p, '', s)]: a match is removed, the scan goes on after it. *)
Fixpoint sub_loop (fuel : nat) (p : list rx) (s : list ascii) : list ascii :=
  match fuel with
  | O => s
  | S f =>
      match s with
      | [] => []
      | c :: s' =>
          match match_here p s with
          | Some rest =>
              if (List.length rest <? List.length s)%nat then sub_loop f p rest
              else c :: sub_loop f p s'
          | None => c :: sub_loop f p s'
          end
      end
  end.

(** [re.sub(p, '', s)]. *)
Definition sub (p : list rx) (s : string) : string :=
  let l := list_ascii_of_string s in
  string_of_list_ascii (sub_loop (S (List.length l)) p l).

(** [re.search(p, s)] on a string, as a boolean. *)
Definition search_str (p : list rx) (s : string) : bool := search p (list_ascii_of_string s).

End Re.

Import Re.

(** ['[/]\d+$'] and ['-\d$']. *)
Definition cidr_re : list rx := [RAtom (AChar "/"); RPlus ADigit; REnd].
Definition member_re : list rx := [RAtom (AChar "-"); RAtom ADigit; REnd].

(** A device of the API's JSON response, with the fields
    [format_devices] reads ([primary_ip] is JSON null or an object with an
    [address]). *)
Record device := mkDevice {
  display_name : string;
  primary_ip : option string
}.

(** The body of the first loop of [format_devices] on the address. *)
Definition clean_address (a : string) : string :=
  if search_str cidr_re a then sub cidr_re a else a.

(** The body of the second loop of [format_devices] on the display name. *)
Definition clean_name (n : string) : string :=
  if search_str member_re n then sub member_re n else n.

(** The first loop of [format_devices], on [item['primary_ip']['address']]
    (a null [primary_ip] raises TypeError when subscripted). *)
Fixpoint strip_addresses (data : list device) : sum pyerr (list device) :=
  match data with
  | [] => inr []
  | d :: data' =>
      match primary_ip d with
      | None => inl TypeError   (* None['address'] *)
      | Some a =>
          match strip_addresses data' with
          | inl e => inl e
          | inr r => inr (mkDevice (display_name d) (Some (clean_address a)) :: r)
          end
      end
  end.

(** [NetboxAPI.format_devices]: the second loop cleans [display_name]. *)
Definition format_devices (data : list device) : sum pyerr (list device) :=
  match strip_addresses data with
  | inl e => inl e
  | inr data' =>
      inr (map (fun d => mkDevice (clean_name (display_name d)) (primary_ip d)) data')
  end.

(** ** Data model *)

(** The menu option classes.  [SubmenuItem], [SitesItem] and [SearchItem]
    own a submenu (a reference to another menu); [QuickConnect] and
    [DeviceItem] are the [ExternalItem]s that hand the terminal to an ssh
    process. *)
Inductive kind :=
| KPlain                                   (* MenuItem *)
| KSubmenu (submenu : nat)                 (* SubmenuItem *)
| KSites (text_id : string) (submenu : nat) (* SitesItem *)
| KSearch (submenu : nat)                  (* SearchItem *)
| KQuickConnect                            (* QuickConnect *)
| KDevice (text_id : string).              (* DeviceItem *)

Record item := mkItem {
  text : string;
  item_kind : kind;
  item_should_exit : bool
}.

(** An entry of [Jumpbox.items]: either the menu's own [exit_item] (the
    object compared with [is self.exit_item]) or another option. *)
Inductive entry :=
| ExitEntry
| Opt (it : item).

Definition is_exit (e : entry) : bool :=
  match e with ExitEntry => true | Opt _ => false end.

(** Attributes passed to [addstr]. *)
Inductive attr := A_UNDERLINE | A_BOLD | A_NORMAL | HIGHLIGHT.

(** The recorded curses and terminal calls. *)
Inductive op :=
| Border                                   (* screen.border(0) *)
| AddStr (y x : Z) (s : string) (a : attr) (* screen.addstr *)
| PadRefresh (pminrow pmincol sminrow smincol smaxrow smaxcol : Z)
| PadClear                                 (* screen.clear() *)
| PadResize (rows cols : Z)                (* screen.resize *)
| NewPad (rows cols : Z)                   (* curses.newpad *)
| StdErase                                 (* stdscr.erase() *)
| StdRefresh                               (* stdscr.refresh() *)
| InitColors                               (* _set_up_colors *)
| CursSet (v : Z)                          (* curses.curs_set *)
| DefProgMode                              (* curses.def_prog_mode *)
| ResetProgMode                            (* curses.reset_prog_mode *)
| ClearTerminal                            (* clear_terminal(): reset *)
| WrapperEnter | WrapperExit               (* curses.wrapper *)
| Prompt (s : string)                      (* raw_input *)
| Ssh (target : option string).            (* subprocess ssh; None: typed by the user *)

(** A [Jumpbox] instance. [screen] is the pad, given by its size, or [None]
    before [_main_loop] created it; [exit_text] is [self.exit_item.text]. *)
Record jumpbox := mkJumpbox {
  title : option string;
  subtitle : option string;
  show_exit_option : bool;
  screen : option (Z * Z);
  term_y : Z;
  term_x : Z;
  items : list entry;
  current_option : Z;
  selected_option : Z;
  returned_value : option Z;
  should_exit : bool;
  parent : option nat;
  previous_active_menu : option nat;
  running : bool;
  exit_text : string
}.

(** [Jumpbox.__init__]. *)
Definition new_jumpbox (t s : option string) (show_exit : bool) : jumpbox :=
  mkJumpbox t s show_exit None 0 0 [] 0 (-1) None false None None false "Exit".

(** Field updates. *)
Definition set_screen (n : jumpbox) v :=
  mkJumpbox n.(title) n.(subtitle) n.(show_exit_option) v n.(term_y) n.(term_x)
    n.(items) n.(current_option) n.(selected_option) n.(returned_value)
    n.(should_exit) n.(parent) n.(previous_active_menu) n.(running) n.(exit_text).
Definition set_term (n : jumpbox) y x :=
  mkJumpbox n.(title) n.(subtitle) n.(show_exit_option) n.(screen) y x
    n.(items) n.(current_option) n.(selected_option) n.(returned_value)
    n.(should_exit) n.(parent) n.(previous_active_menu) n.(running) n.(exit_text).
Definition set_items (n : jumpbox) v :=
  mkJumpbox n.(title) n.(subtitle) n.(show_exit_option) n.(screen) n.(term_y) n.(term_x)
    v n.(current_option) n.(selected_option) n.(returned_value)
    n.(should_exit) n.(parent) n.(previous_active_menu) n.(running) n.(exit_text).
Definition set_current_option (n : jumpbox) v :=
  mkJumpbox n.(title) n.(subtitle) n.(show_exit_option) n.(screen) n.(term_y) n.(term_x)
    n.(items) v n.(selected_option) n.(returned_value)
    n.(should_exit) n.(parent) n.(previous_active_menu) n.(running) n.(exit_text).
Definition set_selected_option (n : jumpbox) v :=
  mkJumpbox n.(title) n.(subtitle) n.(show_exit_option) n.(screen) n.(term_y) n.(term_x)
    n.(items) n.(current_option) v n.(returned_value)
    n.(should_exit) n.(parent) n.(previous_active_menu) n.(running) n.(exit_text).
Definition set_returned_value (n : jumpbox) v :=
  mkJumpbox n.(title) n.(subtitle) n.(show_exit_option) n.(screen) n.(term_y) n.(term_x)
    n.(items) n.(current_option) n.(selected_option) v
    n.(should_exit) n.(parent) n.(previous_active_menu) n.(running) n.(exit_text).
Definition set_should_exit (n : jumpbox) v :=
  mkJumpbox n.(title) n.(subtitle) n.(show_exit_option) n.(screen) n.(term_y) n.(term_x)
    n.(items) n.(current_option) n.(selected_option) n.(returned_value)
    v n.(parent) n.(previous_active_menu) n.(running) n.(exit_text).
Definition set_parent (n : jumpbox) v :=
  mkJumpbox n.(title) n.(subtitle) n.(show_exit_option) n.(screen) n.(term_y) n.(term_x)
    n.(items) n.(current_option) n.(selected_option) n.(returned_value)
    n.(should_exit) v n.(previous_active_menu) n.(running) n.(exit_text).
Definition set_previous_active_menu (n : jumpbox) v :=
  mkJumpbox n.(title) n.(subtitle) n.(show_exit_option) n.(screen) n.(term_y) n.(term_x)
    n.(items) n.(current_option) n.(selected_option) n.(returned_value)
    n.(should_exit) n.(parent) v n.(running) n.(exit_text).
Definition set_running (n : jumpbox) v :=
  mkJumpbox n.(title) n.(subtitle) n.(show_exit_option) n.(screen) n.(term_y) n.(term_x)
    n.(items) n.(current_option) n.(selected_option) n.(returned_value)
    n.(should_exit) n.(parent) n.(previous_active_menu) v n.(exit_text).
Definition set_exit_text (n : jumpbox) v :=
  mkJumpbox n.(title) n.(subtitle) n.(show_exit_option) n.(screen) n.(term_y) n.(term_x)
    n.(items) n.(current_option) n.(selected_option) n.(returned_value)
    n.(should_exit) n.(parent) n.(previous_active_menu) n.(running) v.

(** Input events: the keys read by [stdscr.getch()], and what
    [SearchItem.action] receives from outside: the search string typed at
    its [raw_input] prompt together with the NetBox API's answer to that
    search, given as the ['results'] of the decoded response, or [None]
    when [api_call] returned its error string. *)
Inductive event :=
| Key (code : Z)
| ResizeTo (rows cols : Z)    (* the terminal is resized: getch gives KEY_RESIZE *)
| SearchReply (results : option (list device)).

(** The whole program state: the object store, the terminal ([Jumpbox.stdscr]
    is represented by its size), the class attribute
    [Jumpbox.currently_active_menu], the recorded calls, the pending input,
    and [__version__] (from [version.py], not part of the sources). *)
Record world := mkWorld {
  store : nat -> jumpbox;
  stdscr_yx : Z * Z;
  currently_active_menu : option nat;
  trace : list op;
  inputs : list event;
  version : string
}.

Definition upd (st : nat -> jumpbox) (m : nat) (n : jumpbox) : nat -> jumpbox :=
  fun k => if Nat.eqb k m then n else st k.

(** ** The state and error monad *)

(** [Raise] keeps the state reached when the exception is raised;
    [Blocked]: [getch] waits for input that never comes; [NoFuel]: the
    recursion bound of the model is exhausted. *)
Inductive result (A : Type) :=
| Ok (a : A) (w : world)
| Raise (e : pyerr) (w : world)
| Blocked (w : world)
| NoFuel (w : world).
Arguments Ok {A}. Arguments Raise {A}. Arguments Blocked {A}. Arguments NoFuel {A}.

Definition M (A : Type) := world -> result A.

Definition ret {A} (a : A) : M A := fun w => Ok a w.
Definition bind {A B} (c : M A) (k : A -> M B) : M B :=
  fun w => match c w with
           | Ok a w' => k a w'
           | Raise e w' => Raise e w'
           | Blocked w' => Blocked w'
           | NoFuel w' => NoFuel w'
           end.
Definition raise {A} (e : pyerr) : M A := fun w => Raise e w.
Definition out_of_fuel {A} : M A := fun w => NoFuel w.

Notation "x <- c ;; k" := (bind c (fun x => k))
  (at level 61, c at next level, right associativity).
Notation "c ;; k" := (bind c (fun _ => k)) (at level 61, right associativity).

Definition get_node (m : nat) : M jumpbox := fun w => Ok (w.(store) m) w.
Definition put_node (m : nat) (n : jumpbox) : M unit :=
  fun w => Ok tt (mkWorld (upd w.(store) m n) w.(stdscr_yx)
                     w.(currently_active_menu) w.(trace) w.(inputs) w.(version)).
Definition modify_node (m : nat) (f : jumpbox -> jumpbox) : M unit :=
  n <- get_node m ;; put_node m (f n).
Definition emit (o : op) : M unit :=
  fun w => Ok tt (mkWorld w.(store) w.(stdscr_yx) w.(currently_active_menu)
                     (w.(trace) ++ [o]) w.(inputs) w.(version)).
Definition getmaxyx : M (Z * Z) := fun w => Ok w.(stdscr_yx) w.
Definition get_version : M string := fun w => Ok w.(version) w.
Definition set_active (a : option nat) : M unit :=
  fun w => Ok tt (mkWorld w.(store) w.(stdscr_yx) a w.(trace) w.(inputs) w.(version)).
Definition get_active : M (option nat) := fun w => Ok w.(currently_active_menu) w.

(** [stdscr.getch()]: the next input event, blocking when there is none. *)
Definition getch : M Z :=
  fun w => match w.(inputs) with
           | [] => Blocked w
           | Key c :: r =>
               Ok c (mkWorld w.(store) w.(stdscr_yx) w.(currently_active_menu)
                       w.(trace) r w.(version))
           | ResizeTo y x :: r =>
               Ok KEY_RESIZE (mkWorld w.(store) (y, x) w.(currently_active_menu)
                                w.(trace) r w.(version))
           | SearchReply _ :: _ => Blocked w   (* no key is pressed *)
           end.

(** [raw_input("Search: ")] of [SearchItem.action] and the API's answer
    to the search: the next event must be a [SearchReply]; before any
    other event the prompt keeps waiting. *)
Definition read_search : M (option (list device)) :=
  fun w => match w.(inputs) with
           | SearchReply res :: r =>
               Ok res (mkWorld w.(store) w.(stdscr_yx) w.(currently_active_menu)
                         w.(trace) r w.(version))
           | _ => Blocked w
           end.

(** ** Menu options *)

(** ["%d - %s" % (index + 1, text)] *)
Definition fmt_option (index : Z) (t : string) : string :=
  (Py.str_int (index + 1) ++ " - " ++ t)%string.

(** [MenuItem.show], overridden by [NetboxItem.show] (["%d - %s: %s"]). *)
Definition item_show (it : item) (index : Z) : string :=
  match it.(item_kind) with
  | KSites tid _ | KDevice tid => fmt_option index (it.(text) ++ ": " ++ tid)%string
  | _ => fmt_option index it.(text)
  end.

(** [ExitItem.show] of the exit item of menu [m]: the text is recomputed
    from the menu's parent at every call and stored back into the item. *)
Definition exit_show (m : nat) (index : Z) : M string :=
  n <- get_node m ;;
  t <- (match n.(parent) with
        | Some p => pn <- get_node p ;;
                    ret ("Return to " ++ Py.str_opt pn.(title) ++ " menu")%string
        | None => ret "Exit"%string
        end) ;;
  n' <- get_node m ;;
  put_node m (set_exit_text n' t) ;;
  ret (fmt_option index t).

(** [item.show(index)] for an entry of the items of menu [m]. *)
Definition show (m : nat) (index : Z) (e : entry) : M string :=
  match e with
  | ExitEntry => exit_show m index
  | Opt it => ret (item_show it index)
  end.

(** ** Jumpbox methods *)

(** The [for index, item in enumerate(self.items)] loop of [draw]; it
    returns the value of the variable [index] after the loop ([None]: the
    loop body never ran, so [index] is unbound). *)
Fixpoint draw_items (m : nat) (l : list entry) (index : Z) (last : option Z)
  : M (option Z) :=
  match l with
  | [] => ret last
  | e :: l' =>
      n <- get_node m ;;
      let text_style := if n.(current_option) =? index then HIGHLIGHT else A_NORMAL in
      s <- show m index e ;;
      emit (AddStr (index + 5) 4 s text_style) ;;
      draw_items m l' (index + 1) (Some index)
  end.

(** The scroll offset computed at the end of [draw]. *)
Definition top_row_of (n_items term_y current : Z) : Z :=
  if n_items + 6 >? term_y then
    if term_y + current <? n_items + 6 then current else n_items + 6 - term_y
  else 0.

(** [Jumpbox.draw]. *)
Definition draw (m : nat) : M unit :=
  n <- get_node m ;;
  match n.(screen) with
  | None => raise AttributeError
  | Some _ =>
      emit Border ;;
      (match n.(title) with
       | Some t => emit (AddStr 2 2 t A_UNDERLINE)
       | None => ret tt
       end) ;;
      (match n.(subtitle) with
       | Some s => emit (AddStr 4 2 s A_BOLD)
       | None => ret tt
       end) ;;
      last <- draw_items m n.(items) 0 None ;;
      match last with
      | None => raise UnboundLocalError
      | Some index =>
          v <- get_version ;;
          n1 <- get_node m ;;
          emit (AddStr (index + 5) (n1.(term_x) - Z.of_nat (String.length v) - 2) v A_BOLD) ;;
          yx <- getmaxyx ;;
          n2 <- get_node m ;;
          put_node m (set_term n2 (fst yx) (snd yx)) ;;
          let top_row := top_row_of (Z.of_nat (List.length n2.(items)))
                                    (fst yx) n2.(current_option) in
          emit (PadRefresh top_row 0 0 0 (fst yx - 1) (snd yx - 1))
      end
  end.

(** [Jumpbox.clear_screen]. *)
Definition clear_screen (m : nat) : M unit :=
  n <- get_node m ;;
  match n.(screen) with
  | None => raise AttributeError
  | Some _ => emit PadClear ;; emit StdErase ;; emit StdRefresh
  end.

(** [self.items[-1]] on a non-empty list. *)
Definition last_entry (l : list entry) : option entry :=
  match l with
  | [] => None
  | e :: l' => Some (last l' e)
  end.

(** [Jumpbox.add_exit]. *)
Definition add_exit (m : nat) : M bool :=
  n <- get_node m ;;
  match last_entry n.(items) with
  | Some e =>
      if is_exit e then ret false
      else put_node m (set_items n (n.(items) ++ [ExitEntry])) ;; ret true
  | None => ret false
  end.

(** [Jumpbox.remove_exit]. *)
Definition remove_exit (m : nat) : M bool :=
  n <- get_node m ;;
  match last_entry n.(items) with
  | Some e =>
      if is_exit e then put_node m (set_items n (removelast n.(items))) ;; ret true
      else ret false
  | None => ret false
  end.

(** [Jumpbox.append_item] ([item.menu = self] is implicit: an entry of the
    items of [m] belongs to [m]). *)
Definition append_item (m : nat) (e : entry) : M unit :=
  did_remove <- remove_exit m ;;
  n <- get_node m ;;
  put_node m (set_items n (n.(items) ++ [e])) ;;
  (if did_remove then add_exit m ;; ret tt else ret tt) ;;
  n1 <- get_node m ;;
  match n1.(screen) with
  | None => ret tt
  | Some (py, px) =>
      put_node m (set_term n1 py px) ;;
      let len := Z.of_nat (List.length n1.(items)) in
      (if py <? 6 + len
       then emit (PadResize (len + 6) px) ;;
            n2 <- get_node m ;; put_node m (set_screen n2 (Some (len + 6, px)))
       else ret tt) ;;
      draw m
  end.

(** [Jumpbox.reset_menu]. *)
Definition reset_menu (m : nat) : M unit :=
  modify_node m (fun n => set_items n []).

(** [Jumpbox.go_to]. *)
Definition go_to (m : nat) (option : Z) : M unit :=
  modify_node m (fun n => set_current_option n option) ;; draw m.

(** The cursor assignments of [go_down] and [go_up]. *)
Definition go_down_step (n : jumpbox) : Z :=
  if n.(current_option) <? Z.of_nat (List.length n.(items)) - 1
  then n.(current_option) + 1 else 0.
Definition go_up_step (n : jumpbox) : Z :=
  if n.(current_option) >? 0
  then n.(current_option) + -1 else Z.of_nat (List.length n.(items)) - 1.

(** [Jumpbox.go_down] and [Jumpbox.go_up]. *)
Definition go_down (m : nat) : M unit :=
  modify_node m (fun n => set_current_option n (go_down_step n)) ;; draw m.
Definition go_up (m : nat) : M unit :=
  modify_node m (fun n => set_current_option n (go_up_step n)) ;; draw m.

(** The [selected_item] property ([None] is Python's None; a bad index raises). *)
Definition selected_item (m : nat) : M (option entry) :=
  n <- get_node m ;;
  if negb (match n.(items) with [] => true | _ => false end)
     && negb (n.(selected_option) =? -1)
  then match Py.getitem n.(items) n.(current_option) with
       | Some e => ret (Some e)
       | None => raise IndexError
       end
  else ret None.

(** [self.selected_item.<method>]: attribute access on None raises. *)
Definition selected_entry (m : nat) : M entry :=
  se <- selected_item m ;;
  match se with
  | Some e => ret e
  | None => raise AttributeError
  end.

(** [set_up], [clean_up], [get_return] and [should_exit] of the selected
    option of menu [m] ([self.menu] is [m]).  [action] calls back into the
    run loop and is part of the mutual definition below. *)
Definition set_up (m : nat) (e : entry) : M unit :=
  match e with
  | ExitEntry => ret tt
  | Opt it =>
      match it.(item_kind) with
      | KPlain => ret tt
      | KSubmenu _ | KSites _ _ => emit DefProgMode ;; clear_screen m
      | KSearch _ | KQuickConnect | KDevice _ =>
          emit DefProgMode ;; emit ClearTerminal ;; clear_screen m
      end
  end.

(** The [clean_up] of [SubmenuItem], [SitesItem], [SearchItem],
    [ExternalItem] and [DeviceItem]: the terminal release sequence. *)
Definition release (m : nat) : M unit :=
  clear_screen m ;;
  emit ResetProgMode ;;
  emit (CursSet 1) ;;
  emit (CursSet 0).

Definition clean_up (m : nat) (e : entry) : M unit :=
  match e with
  | ExitEntry => ret tt
  | Opt it =>
      match it.(item_kind) with
      | KPlain => ret tt
      | _ => release m
      end
  end.

Definition get_return (m : nat) (e : entry) : M (option Z) :=
  match e with
  | Opt {| item_kind := KSubmenu c |} | Opt {| item_kind := KSites _ c |}
  | Opt {| item_kind := KSearch c |} =>
      nc <- get_node c ;; ret nc.(returned_value)
  | _ => n <- get_node m ;; ret n.(returned_value)
  end.

Definition entry_should_exit (e : entry) : bool :=
  match e with
  | ExitEntry => true
  | Opt it => it.(item_should_exit)
  end.

(** [api.get_devices(q=self.search_str)] on the API's answer: on an
    error string, [response['results']] raises TypeError; otherwise the
    results go through [format_devices]. *)
Definition get_devices (res : option (list device)) : M (list device) :=
  match res with
  | None => raise TypeError
  | Some data =>
      match format_devices data with
      | inl e => raise e
      | inr ds => ret ds
      end
  end.

(** The [for] loop of [SearchItem.action]:
    [self.submenu.append_item(DeviceItem(item['display_name'],
    item['primary_ip']['address']))] for each device found. *)
Fixpoint append_devices (c : nat) (ds : list device) : M unit :=
  match ds with
  | [] => ret tt
  | d :: ds' =>
      text_id <- (match primary_ip d with
                  | Some a => ret a
                  | None => raise TypeError
                  end) ;;
      append_item c (Opt (mkItem (display_name d) (KDevice text_id) false)) ;;
      append_devices c ds'
  end.

(** ** The run loop

    [start], [_wrap_start], [_main_loop], the [while] loop of [_main_loop],
    [process_user_input], [select] and the options' [action] call each
    other (a submenu's [action] starts the submenu; a resize re-enters
    [_main_loop]).  They are defined together, bounded by [fuel]. *)

Fixpoint start (fuel : nat) (m : nat) (show_exit : option bool) : M unit :=
  match fuel with
  | O => out_of_fuel
  | S f =>
      prev <- get_active ;;
      modify_node m (fun n => set_previous_active_menu n prev) ;;
      set_active None ;;
      modify_node m (fun n => set_current_option n 0) ;;
      modify_node m (fun n => set_should_exit n false) ;;
      n <- get_node m ;;
      let flag := match show_exit with Some b => b | None => n.(show_exit_option) end in
      (if flag then add_exit m ;; ret tt else remove_exit m ;; ret tt) ;;
      wrap_start f m
  end

with wrap_start (fuel : nat) (m : nat) : M unit :=
  match fuel with
  | O => out_of_fuel
  | S f =>
      n <- get_node m ;;
      (match n.(parent) with
       | None => emit WrapperEnter ;; main_loop f m ;; emit WrapperExit
       | Some _ => main_loop f m
       end) ;;
      set_active None ;;
      clear_screen m ;;
      emit ClearTerminal ;;
      n' <- get_node m ;;
      set_active n'.(previous_active_menu)
  end

(** [_main_loop] (the [scr] argument only rebinds [Jumpbox.stdscr] to the
    same terminal). *)
with main_loop (fuel : nat) (m : nat) : M unit :=
  match fuel with
  | O => out_of_fuel
  | S f =>
      yx <- getmaxyx ;;
      n <- get_node m ;;
      put_node m (set_term n (fst yx) (snd yx)) ;;
      let rows := Z.of_nat (List.length n.(items)) + 6 in
      emit (NewPad rows (snd yx)) ;;
      modify_node m (fun n => set_screen n (Some (rows, snd yx))) ;;
      emit InitColors ;;
      emit (CursSet 0) ;;
      emit StdRefresh ;;
      draw m ;;
      set_active (Some m) ;;
      modify_node m (fun n => set_running n true) ;;
      loop f m
  end

(** [while self._running is not False and not self.should_exit]. *)
with loop (fuel : nat) (m : nat) : M unit :=
  match fuel with
  | O => out_of_fuel
  | S f =>
      n <- get_node m ;;
      if n.(running) && negb n.(should_exit)
      then process_user_input f m ;; loop f m
      else ret tt
  end

with process_user_input (fuel : nat) (m : nat) : M Z :=
  match fuel with
  | O => out_of_fuel
  | S f =>
      user_input <- getch ;;
      n <- get_node m ;;
      let len := Z.of_nat (List.length n.(items)) in
      go_to_max <- (if len >=? 9 then ret ord_9
                    else match Py.ord (Py.str_int len) with
                         | Some c => ret c
                         | None => raise TypeError
                         end) ;;
      (if (ord_1 <=? user_input) && (user_input <=? go_to_max)
       then go_to m (user_input - ord_0 - 1)
       else if user_input =? KEY_DOWN then go_down m
       else if user_input =? KEY_UP then go_up m
       else if user_input =? KEY_RIGHT then select f m
       else if user_input =? KEY_LEFT then
         n1 <- get_node m ;;
         put_node m (set_current_option n1 (Z.of_nat (List.length n1.(items)) - 1)) ;;
         select f m
       else if user_input =? KEY_RESIZE then
         modify_node m (fun n => set_running n false) ;;
         main_loop f m
       else if user_input =? ord_newline then select f m
       else ret tt) ;;
      ret user_input
  end

with select (fuel : nat) (m : nat) : M unit :=
  match fuel with
  | O => out_of_fuel
  | S f =>
      n <- get_node m ;;
      put_node m (set_selected_option n n.(current_option)) ;;
      e1 <- selected_entry m ;; set_up m e1 ;;
      e2 <- selected_entry m ;; action f m e2 ;;
      e3 <- selected_entry m ;; clean_up m e3 ;;
      e4 <- selected_entry m ;; rv <- get_return m e4 ;;
      modify_node m (fun n => set_returned_value n rv) ;;
      e5 <- selected_entry m ;;
      modify_node m (fun n => set_should_exit n (entry_should_exit e5)) ;;
      n' <- get_node m ;;
      if negb n'.(should_exit) then draw m else ret tt
  end

(** [action] of the selected option. *)
with action (fuel : nat) (m : nat) (e : entry) : M unit :=
  match fuel with
  | O => out_of_fuel
  | S f =>
      match e with
      | ExitEntry => ret tt
      | Opt it =>
          match it.(item_kind) with
          | KPlain => ret tt
          | KSubmenu c | KSites _ c => start f c None
          | KSearch c =>
              emit (Prompt "Search: ") ;;
              res <- read_search ;;
              reset_menu c ;;
              ds <- get_devices res ;;
              if 0 <? Z.of_nat (List.length ds)
              then append_devices c ds ;;
                   emit ClearTerminal ;;
                   clear_screen m ;;
                   emit ResetProgMode ;;
                   emit (CursSet 1) ;;
                   emit (CursSet 0) ;;
                   start f c None
              else ret tt
          | KQuickConnect =>
              emit (Prompt "Hostname/IP Address: ") ;;
              emit (Prompt "Username: ") ;;
              emit (Ssh None)
          | KDevice tid => emit (Prompt "Username: ") ;; emit (Ssh (Some tid))
          end
      end
  end.

(** ** Derived notions used in the statements *)

(** A sequence of [append_item] calls on one menu, as [main] makes them. *)
Fixpoint append_items (m : nat) (xs : list entry) : M unit :=
  match xs with
  | [] => ret tt
  | e :: xs' => append_item m e ;; append_items m xs'
  end.

(** Number of occurrences of the menu's exit item in a list of entries. *)
Definition count_exit (l : list entry) : nat := List.length (filter is_exit l).

(** The scroll offset as the specification words it, for terminal height
    [H], content height [C] and cursor [cur]. *)
Definition scroll_offset_spec (H C cur : Z) : Z :=
  if C <=? H then 0
  else if H + cur <? C then cur
  else C - H.

(** The parts of the world that menu code only reads. *)
Definition env_eq (w w' : world) : Prop :=
  w'.(stdscr_yx) = w.(stdscr_yx) /\ w'.(currently_active_menu) = w.(currently_active_menu)
  /\ w'.(inputs) = w.(inputs) /\ w'.(version) = w.(version).

(** [n'] differs from [n] at most in the fields [draw] writes. *)
Definition redrawn (n n' : jumpbox) : Prop :=
  exists y x t, n' = set_exit_text (set_term n y x) t.

(** The text [ExitItem.show] computes for the exit item of [m]. *)
Definition exit_label (w : world) (m : nat) : string :=
  match parent (store w m) with
  | Some p => ("Return to " ++ Py.str_opt (title (store w p)) ++ " menu")%string
  | None => "Exit"%string
  end.

(** ** Menus reachable through submenu options

    A submenu option of menu [m] ([SubmenuItem], [SitesItem] or
    [SearchItem]) starts its child menu.  [reach w m k]: menu [k] is [m] or is reachable from [m]
    through the submenu options of the menus on the way. *)
Definition submenu_of (it : item) : option nat :=
  match item_kind it with
  | KSubmenu c | KSites _ c | KSearch c => Some c
  | _ => None
  end.

Inductive reach (w : world) : nat -> nat -> Prop :=
| reach_here m : reach w m m
| reach_below m c k it :
    In (Opt it) (items (store w m)) -> submenu_of it = Some c -> reach w c k -> reach w m k.

(** Every submenu option of a menu of [w'] is already an option of that
    menu in [w]: no submenu link is new. *)
Definition links_sub (w' w : world) : Prop :=
  forall k it c, In (Opt it) (items (store w' k)) -> submenu_of it = Some c ->
  In (Opt it) (items (store w k)).

(** From [w] to [w'], only menus reachable from [m] changed, and no
    submenu link was added anywhere. *)
Definition frame (m : nat) (w w' : world) : Prop :=
  (forall k, ~ reach w m k -> store w' k = store w k) /\ links_sub w' w.

(** Every successful run of [c] is framed by [m]. *)
Definition frames {A} (m : nat) (c : M A) : Prop :=
  forall w a w', c w = Ok a w' -> frame m w w'.

(** The same, for a computation on an entry [e] that is one of [m]'s options. *)
Definition framesE {A} (m : nat) (e : entry) (c : M A) : Prop :=
  forall w a w', (forall it, e = Opt it -> In (Opt it) (items (store w m))) ->
  c w = Ok a w' -> frame m w w'.

(** The cursor, the recorded selection and the options of a menu. *)
Definition cursor_state (n : jumpbox) : Z * Z * list entry :=
  (current_option n, selected_option n, items n).

(** Every successful run of [c] leaves the [cursor_state] of menu [P] alone. *)
Definition keeps {A} (P : nat) (c : M A) : Prop :=
  forall w a w', c w = Ok a w' -> cursor_state (store w' P) = cursor_state (store w P).

(** ** Sample menus

    Menu 0 ("Main") has a submenu option leading to menu 1 ("Sites"), a
    plain option and its exit item, and has been given a pad.  Menu 1 has
    one plain option and its exit item.  Every other index holds an
    empty menu with a pad. *)
Definition item_sub : item := mkItem "Sites" (KSubmenu 1) false.
Definition item_a : item := mkItem "A" KPlain false.
Definition item_b : item := mkItem "B" KPlain false.

Definition main_node : jumpbox :=
  set_screen (set_items (new_jumpbox (Some "Main"%string) None true)
                [Opt item_sub; Opt item_a; ExitEntry]) (Some (9, 80)).
Definition child_node : jumpbox :=
  set_parent (set_items (new_jumpbox (Some "Sites"%string) None true)
                [Opt item_b; ExitEntry]) (Some 0%nat).
Definition empty_node : jumpbox :=
  set_screen (new_jumpbox (Some "Empty"%string) None true) (Some (6, 80)).

Definition sample_store (n0 : jumpbox) : nat -> jumpbox :=
  fun k => match k with O => n0 | 1%nat => child_node | _ => empty_node end.
Definition sample_world (n0 : jumpbox) (yx : Z * Z) (ins : list event) : world :=
  mkWorld (sample_store n0) yx None [] ins "1.0".

(** The store once a run has ended normally (the initial one otherwise). *)
Definition final_world {A} (r : result A) (w : world) : world :=
  match r with Ok _ w' => w' | _ => w end.

Definition w_main := sample_world main_node (24, 80) [].
Definition w_empty := sample_world empty_node (24, 80) [].

(** Menu 0 scrolled: cursor on its exit item, in a terminal of 5 rows. *)
Definition w_scroll := sample_world (set_current_option main_node 2) (5, 80) [].
(** Menu 0 with the key LEFT waiting: on menu 1 it selects the exit item. *)
Definition w_nav := sample_world main_node (24, 80) [Key KEY_LEFT].
(** Menu 0 with the digit key 2 waiting. *)
Definition w_digit := sample_world main_node (24, 80) [Key 50].
(** Menu 0 after a selection of option 0, the cursor moved on to option 1. *)
Definition w_sel :=
  sample_world (set_selected_option (set_current_option main_node 1) 0) (24, 80) [].

(** ** Derived notions of the further properties *)

(** The [if self.screen:] block at the end of [append_item]. *)
Definition append_redraw (m : nat) : M unit :=
  n1 <- get_node m ;;
  match n1.(screen) with
  | None => ret tt
  | Some (py, px) =>
      put_node m (set_term n1 py px) ;;
      let len := Z.of_nat (List.length n1.(items)) in
      (if py <? 6 + len
       then emit (PadResize (len + 6) px) ;;
            n2 <- get_node m ;; put_node m (set_screen n2 (Some (len + 6, px)))
       else ret tt) ;;
      draw m
  end.

(** The text [item.show(index)] gives for an entry of menu [m] in [w]. *)
Definition entry_text (w : world) (m : nat) (i : Z) (e : entry) : string :=
  match e with
  | ExitEntry => fmt_option i (exit_label w m)
  | Opt it => item_show it i
  end.

(** The rows the loop of [draw] writes, from index [i] on, with the cursor at [cur]. *)
Fixpoint row_ops (w : world) (m : nat) (cur : Z) (l : list entry) (i : Z) : list op :=
  match l with
  | [] => []
  | e :: l' => AddStr (i + 5) 4 (entry_text w m i e) (if cur =? i then HIGHLIGHT else A_NORMAL)
               :: row_ops w m cur l' (i + 1)
  end.

(** No menu holds a returned value ([__init__] sets it to None). *)
Definition no_returns (w : world) : Prop := forall k, returned_value (store w k) = None.

(** Every successful run of [c] from a world without returned values ends in one. *)
Definition pres {A} (c : M A) : Prop :=
  forall w a w', no_returns w -> c w = Ok a w' -> no_returns w'.

(** ** Sample NetBox data *)

(** Sites: two without devices, two with devices. *)
Definition site_hq : site := mkSite "HQ" "NYC1" "hq" 0.
Definition site_lab : site := mkSite "Lab" "NYC2" "lab" 0.
Definition site_dc1 : site := mkSite "DC1" "ATL1" "dc1" 3.
Definition site_dc2 : site := mkSite "DC2" "ATL2" "dc2" 2.

(** A switch stack member with a prefix-length address, and a device
    without a primary IP. *)
Definition dev_sw : device := mkDevice "sw-1" (Some "10.0.0.1/24"%string).
Definition dev_noip : device := mkDevice "rtr" None.

(** ** Further sample runs *)

(** Menu 0 running, with the key LEFT waiting. *)
Definition w_left := sample_world (set_running main_node true) (24, 80) [Key KEY_LEFT].
(** Menu 0 with the key 'q' (113) waiting. *)
Definition w_quit := sample_world main_node (24, 80) [Key 113].
(** Menu 0: RIGHT opens the submenu "Sites", LEFT leaves it, LEFT leaves menu 0. *)
Definition w_deep := sample_world main_node (24, 80) [Key KEY_RIGHT; Key KEY_LEFT; Key KEY_LEFT].
(** Menu 0 with a search option whose submenu is menu 1: RIGHT runs the
    search, which finds the switch; LEFT leaves menu 1, LEFT leaves menu 0. *)
Definition item_search : item := mkItem "Search" (KSearch 1) false.
Definition w_search :=
  sample_world (set_items main_node [Opt item_search; ExitEntry]) (24, 80)
    [Key KEY_RIGHT; SearchReply (Some [dev_sw]); Key KEY_LEFT; Key KEY_LEFT].

(** * Properties *)

(** ** Facts about single methods *)

Lemma set_exit_text_eta (n : jumpbox) : set_exit_text n n.(exit_text) = n.
Proof. destruct n; reflexivity. Qed.

Lemma set_term_eta (n : jumpbox) : set_term n n.(term_y) n.(term_x) = n.
Proof. destruct n; reflexivity. Qed.

Lemma upd_eq st m n : upd st m n m = n.
Proof. unfold upd. rewrite Nat.eqb_refl. reflexivity. Qed.

Lemma upd_neq st m n k : k <> m -> upd st m n k = st k.
Proof. intros H. unfold upd. destruct (Nat.eqb_spec k m); congruence. Qed.

Lemma env_eq_refl w : env_eq w w.
Proof. repeat split. Qed.

Lemma env_eq_trans w1 w2 w3 : env_eq w1 w2 -> env_eq w2 w3 -> env_eq w1 w3.
Proof. unfold env_eq. intuition congruence. Qed.


Lemma exit_show_run m i w :
  exit_show m i w =
  Ok (fmt_option i (exit_label w m))
     (mkWorld (upd (store w) m (set_exit_text (store w m) (exit_label w m)))
        (stdscr_yx w) (currently_active_menu w) (trace w) (inputs w) (version w)).
Proof. unfold exit_label. cbv [exit_show bind get_node put_node ret]. now destruct (parent (store w m)). Qed.

Lemma draw_items_cons m e l i last w :
  draw_items m (e :: l) i last w =
  match show m i e w with
  | Ok s w1 =>
      draw_items m l (i + 1) (Some i)
        (mkWorld (store w1) (stdscr_yx w1) (currently_active_menu w1)
           (trace w1 ++ [AddStr (i + 5) 4 s
              (if current_option (store w m) =? i then HIGHLIGHT else A_NORMAL)])
           (inputs w1) (version w1))
  | Raise e w1 => Raise e w1
  | Blocked w1 => Blocked w1
  | NoFuel w1 => NoFuel w1
  end.
Proof. reflexivity. Qed.

(** The loop of [draw] writes one row per entry and only changes the text
    of the exit item; afterwards [index] is the last index, if any. *)
Lemma draw_items_spec (m : nat) (l : list entry) :
  forall i last w, exists w' r,
    draw_items m l i last w = Ok r w'
    /\ (forall k, k <> m -> store w' k = store w k)
    /\ (exists t, store w' m = set_exit_text (store w m) t)
    /\ env_eq w w'
    /\ (exists ops, trace w' = trace w ++ ops)
    /\ r = match l with [] => last | _ => Some (i + Z.of_nat (List.length l) - 1) end.
Proof.
  induction l as [|e l IH]; intros i last w.
  - exists w, last. repeat split.
    + exists (exit_text (store w m)). now rewrite set_exit_text_eta.
    + exists []. now rewrite app_nil_r.
  - rewrite draw_items_cons.
    assert (Hshow : exists s st', show m i e w =
              Ok s (mkWorld st' (stdscr_yx w) (currently_active_menu w) (trace w)
                      (inputs w) (version w))
            /\ (forall k, k <> m -> st' k = store w k)
            /\ exists t, st' m = set_exit_text (store w m) t).
    { destruct e as [|it]; simpl.
      - rewrite exit_show_run. do 2 eexists. split; [reflexivity|]. split.
        + intros k Hk. now apply upd_neq.
        + exists (exit_label w m). apply upd_eq.
      - exists (item_show it i), (store w). split; [now destruct w|]. split; [reflexivity|].
        exists (exit_text (store w m)). now rewrite set_exit_text_eta. }
    destruct Hshow as (s & st' & -> & Hk0 & (t0 & Ht0)).
    match goal with |- context [draw_items m l (i + 1) (Some i) ?w1] =>
      destruct (IH (i + 1) (Some i) w1)
        as (w' & r & Hrun & Hk & (t' & Ht) & Henv & (ops & Hops) & Hr) end.
    exists w', r. split; [exact Hrun|]. simpl in *.
    split; [|split; [|split; [|split]]].
    + intros k Hkm. rewrite Hk, Hk0 by exact Hkm. reflexivity.
    + exists t'. rewrite Ht, Ht0. reflexivity.
    + destruct Henv as (H1 & H2 & H3 & H4). repeat split; simpl in *; congruence.
    + rewrite Hops, <- app_assoc. eexists. reflexivity.
    + rewrite Hr. destruct l; simpl; [f_equal; lia|]. f_equal.
      rewrite !Zpos_P_of_succ_nat. lia.
Qed.

Lemma app_snoc_prefix {A} (a b : list A) (c c' : A) :
  (exists o, a = b ++ o) -> c = c' -> exists o, a ++ [c] = b ++ o ++ [c'].
Proof. intros (o & ->) <-. exists o. now rewrite <- app_assoc. Qed.
(** [draw] on a menu with a pad and at least one entry: it completes, it
    changes only the view fields of the menu, and its last call is the pad
    refresh at the computed scroll offset. *)
Lemma draw_spec m w sc :
  screen (store w m) = Some sc -> items (store w m) <> [] ->
  exists w', draw m w = Ok tt w'
   /\ (forall k, k <> m -> store w' k = store w k)
   /\ redrawn (store w m) (store w' m)
   /\ env_eq w w'
   /\ exists ops, trace w' = trace w ++ ops ++
        [PadRefresh (top_row_of (Z.of_nat (List.length (items (store w m))))
                       (fst (stdscr_yx w)) (current_option (store w m)))
                    0 0 0 (fst (stdscr_yx w) - 1) (snd (stdscr_yx w) - 1)].
Proof.
  intros Hs Hne.
  cbv [draw bind get_node emit ret get_version getmaxyx put_node]. rewrite Hs.
  destruct (title (store w m)); destruct (subtitle (store w m)); cbn -[draw_items upd top_row_of app].
  all: match goal with |- context [draw_items ?m0 ?l 0 None ?w1] =>
      destruct (draw_items_spec m0 l 0 None w1)
        as (w1' & r & Hrun & Hk & (t' & Ht) & Henv & (ops & Hops) & Hr); rewrite Hrun end.
  all: destruct (items (store w m)) as [|e l] eqn:Hit; [congruence|]; subst r.
  all: cbn -[draw_items upd top_row_of app].
  all: destruct Henv as (E1 & E2 & E3 & E4); cbn in E1, E2, E3, E4, Hk, Ht, Hops.
  all: eexists; split; [reflexivity|]; cbn.
  all: split; [intros k Hkm; rewrite !upd_neq by exact Hkm; apply Hk; exact Hkm|].
  all: split; [rewrite !upd_eq, Ht; exists (fst (stdscr_yx w1')), (snd (stdscr_yx w1')), t'; destruct (store w m); reflexivity|].
  all: split; [repeat split; simpl; congruence|].
  all: apply app_snoc_prefix;
       [rewrite Hops; eexists; rewrite <- !app_assoc; reflexivity
       |rewrite Ht, E1; cbn [set_exit_text items current_option]; rewrite Hit; reflexivity].
Qed.

(** [draw] before [_main_loop] created the pad: [self.screen.border] on None. *)
Lemma draw_no_screen m w :
  screen (store w m) = None -> draw m w = Raise AttributeError w.
Proof. intros Hs. cbv [draw bind get_node raise]. now rewrite Hs. Qed.

(** [draw] on a menu with no entries: the [for] loop never binds [index]. *)
Lemma draw_empty m w sc :
  screen (store w m) = Some sc -> items (store w m) = [] ->
  exists w', draw m w = Raise UnboundLocalError w'.
Proof.
  intros Hs Hit.
  cbv [draw bind get_node emit ret raise]. rewrite Hs, Hit.
  destruct (title (store w m)); destruct (subtitle (store w m)); cbn; eexists; reflexivity.
Qed.



Lemma draw_ok_inv m w w' :
  draw m w = Ok tt w' -> exists sc, screen (store w m) = Some sc /\ items (store w m) <> [].
Proof.
  intros H. destruct (screen (store w m)) as [sc|] eqn:Hs.
  - exists sc. split; [reflexivity|]. intros Hit.
    destruct (draw_empty m w sc Hs Hit) as (w1 & H1). congruence.
  - rewrite draw_no_screen in H by exact Hs. discriminate.
Qed.

(** Setting the cursor and redrawing ([go_to], [go_down], [go_up]). *)
Lemma set_cursor_draw_spec m w sc (v : jumpbox -> Z) :
  screen (store w m) = Some sc -> items (store w m) <> [] ->
  exists w', (modify_node m (fun n => set_current_option n (v n)) ;; draw m) w = Ok tt w'
    /\ current_option (store w' m) = v (store w m)
    /\ items (store w' m) = items (store w m)
    /\ screen (store w' m) = screen (store w m)
    /\ selected_option (store w' m) = selected_option (store w m)
    /\ (forall k, k <> m -> store w' k = store w k)
    /\ env_eq w w'.
Proof.
  intros Hs Hne.
  set (w1 := mkWorld (upd (store w) m (set_current_option (store w m) (v (store w m))))
               (stdscr_yx w) (currently_active_menu w) (trace w) (inputs w) (version w)).
  destruct (draw_spec m w1 sc) as (w' & Hd & Hk & (y & x & t & Hr) & Henv & _);
    [unfold w1; simpl; now rewrite upd_eq | unfold w1; simpl; now rewrite upd_eq |].
  exists w'. split; [exact Hd|].
  unfold w1 in *; simpl in *; rewrite upd_eq in Hr.
  rewrite Hr. simpl. split; [reflexivity|]. split; [reflexivity|]. split; [reflexivity|].
  split; [reflexivity|]. split.
  - intros k Hkm. rewrite Hk by exact Hkm. simpl. now apply upd_neq.
  - exact Henv.
Qed.

Lemma last_entry_snoc l e : last_entry (l ++ [e]) = Some e.
Proof. destruct l as [|x l]; simpl; [reflexivity|]. f_equal. apply last_last. Qed.

Lemma remove_exit_at_end m w l0 :
  items (store w m) = l0 ++ [ExitEntry] ->
  remove_exit m w = Ok true (mkWorld (upd (store w) m (set_items (store w m) l0))
                       (stdscr_yx w) (currently_active_menu w) (trace w) (inputs w) (version w)).
Proof.
  intros Hit. cbv [remove_exit bind get_node put_node ret]. rewrite Hit, last_entry_snoc.
  simpl. rewrite removelast_last. reflexivity.
Qed.

Lemma add_exit_snoc m w l e :
  items (store w m) = l ++ [e] ->
  add_exit m w =
  if is_exit e then Ok false w
  else Ok true (mkWorld (upd (store w) m (set_items (store w m) ((l ++ [e]) ++ [ExitEntry])))
                  (stdscr_yx w) (currently_active_menu w) (trace w) (inputs w) (version w)).
Proof.
  intros Hit. cbv [add_exit bind get_node put_node ret]. rewrite Hit, last_entry_snoc.
  destruct e; reflexivity.
Qed.

Lemma append_item_spec m w e l0 :
  items (store w m) = l0 ++ [ExitEntry] ->
  exists w', append_item m e w = Ok tt w'
   /\ items (store w' m) = (if is_exit e then l0 else l0 ++ [e]) ++ [ExitEntry]
   /\ (screen (store w m) = None -> screen (store w' m) = None)
   /\ (forall sc, screen (store w m) = Some sc -> exists sc', screen (store w' m) = Some sc').
Proof.
  intros Hit.
  cbv [append_item bind get_node put_node ret]. rewrite (remove_exit_at_end m w l0 Hit).
  cbn -[upd add_exit draw]. rewrite upd_eq.
  rewrite (add_exit_snoc m _ l0 e) by (cbn -[upd]; rewrite upd_eq; reflexivity).
  destruct e as [|it]; cbn -[upd draw]; rewrite ?upd_eq; cbn -[upd draw].
  all: destruct (screen (store w m)) as [[py px]|] eqn:Hs; cbn -[upd draw].
  all: try (eexists; split; [reflexivity|]; cbn -[upd]; rewrite !upd_eq; cbn; 
            split; [reflexivity|]; split; [intros; congruence|intros; congruence]).
  all: match goal with |- context [if ?P <? ?X then _ else _] => destruct (P <? X) end; cbn -[upd draw].
  all: match goal with |- context [draw ?m0 ?W] =>
         edestruct (draw_spec m0 W) as (w' & Hd & _ & (y & x & t & Hr) & _ & _);
         [cbn -[upd]; rewrite ?upd_eq; cbn; rewrite ?Hs; reflexivity
         |cbn -[upd]; rewrite ?upd_eq; cbn; intro Habs; destruct l0; discriminate Habs
         |rewrite Hd] end.
  all: eexists; split; [reflexivity|]; rewrite Hr; cbn -[upd]; rewrite ?upd_eq; cbn.
  all: split; [reflexivity|]; split; [intros; congruence|intros; rewrite ?Hs; eexists; reflexivity].
Qed.

Lemma append_items_spec m xs :
  forall w l0, items (store w m) = l0 ++ [ExitEntry] -> ~ In ExitEntry l0 ->
  exists w' l1, append_items m xs w = Ok tt w'
    /\ items (store w' m) = l1 ++ [ExitEntry] /\ ~ In ExitEntry l1.
Proof.
  induction xs as [|e xs IH]; intros w l0 Hit Hnin.
  - exists w, l0. repeat split; assumption.
  - destruct (append_item_spec m w e l0 Hit) as (w1 & H1 & Hit1 & _ & _).
    destruct (IH w1 (if is_exit e then l0 else l0 ++ [e])) as (w' & l1 & H2 & Hit2 & Hnin2).
    + exact Hit1.
    + destruct e; simpl; [exact Hnin|]. rewrite in_app_iff. simpl. intuition discriminate.
    + exists w', l1. split; [|split; assumption].
      cbv [append_items bind]. fold append_items. rewrite H1. exact H2.
Qed.

Lemma count_exit_no_exit l : ~ In ExitEntry l -> count_exit l = 0%nat.
Proof.
  induction l as [|e l IH]; intros Hn; [reflexivity|].
  destruct e; simpl in *; [tauto|]. apply IH. tauto.
Qed.

(** ** Facts used by several statements *)

(** [top_row_of] is the scroll offset of the three cases. *)
Lemma top_row_of_spec n H cur : top_row_of n H cur = scroll_offset_spec H (n + 6) cur.
Proof.
  unfold top_row_of, scroll_offset_spec.
  destruct (n + 6 >? H) eqn:E1, (n + 6 <=? H) eqn:E2; try reflexivity.
  - rewrite Z.gtb_lt in E1. rewrite Z.leb_le in E2. lia.
  - rewrite Z.gtb_ltb, Z.ltb_ge in E1. rewrite Z.leb_gt in E2. lia.
Qed.

(** [ord(str(n))] of a one-digit count. *)
Lemma ord_str_small n : 0 <= n < 9 -> Py.ord (Py.str_int n) = Some (48 + n).
Proof.
  intros H.
  assert (n = 0 \/ n = 1 \/ n = 2 \/ n = 3 \/ n = 4 \/ n = 5 \/ n = 6 \/ n = 7 \/ n = 8)
    as Hn by lia.
  repeat destruct Hn as [->|Hn]; try reflexivity. subst; reflexivity.
Qed.

(** On a menu without options. *)
Lemma main_loop_empty f m w :
  items (store w m) = [] -> exists w', main_loop (S f) m w = Raise UnboundLocalError w'.
Proof.
  intros Hit. cbn [main_loop].
  cbv [bind getmaxyx get_node put_node emit modify_node set_active ret].
  cbn -[upd draw loop]. rewrite !upd_eq. cbn -[upd draw loop].
  match goal with |- context [draw ?m0 ?W] =>
    edestruct (draw_empty m0 W) as (w' & Hd);
    [cbn -[upd]; rewrite !upd_eq; reflexivity
    |cbn -[upd]; rewrite !upd_eq; exact Hit
    |rewrite Hd] end.
  eexists. reflexivity.
Qed.

Lemma add_exit_empty m w : items (store w m) = [] -> add_exit m w = Ok false w.
Proof. intros Hit. cbv [add_exit bind get_node ret]. now rewrite Hit. Qed.

Lemma remove_exit_empty m w : items (store w m) = [] -> remove_exit m w = Ok false w.
Proof. intros Hit. cbv [remove_exit bind get_node ret]. now rewrite Hit. Qed.

(** [append_item] ends with the [if self.screen:] block. *)
Lemma append_item_split m e :
  append_item m e =
  (did_remove <- remove_exit m ;;
   n <- get_node m ;;
   put_node m (set_items n (n.(items) ++ [e])) ;;
   (if did_remove then add_exit m ;; ret tt else ret tt) ;;
   append_redraw m).
Proof. reflexivity. Qed.

(** ** Frames of the run loop *)

Lemma reach_mono w w' a b : links_sub w' w -> reach w' a b -> reach w a b.
Proof.
  intros Hs H. induction H as [m|m c k it Hin Hsub H IH].
  - apply reach_here.
  - eapply reach_below; [eapply Hs; [exact Hin | exact Hsub] | exact Hsub | exact IH].
Qed.

Lemma frame_refl m w : frame m w w.
Proof. split; [reflexivity|intros k it c H _; exact H]. Qed.

Lemma frame_trans m w1 w2 w3 : frame m w1 w2 -> frame m w2 w3 -> frame m w1 w3.
Proof.
  intros [H1 S1] [H2 S2]. split.
  - intros k Hk. rewrite H2, H1; [reflexivity|exact Hk|].
    intros Hr. apply Hk. eapply reach_mono; eassumption.
  - intros k it c H Hc. apply (S1 k it c); [apply (S2 k it c H Hc)|exact Hc].
Qed.

Lemma frame_same_store m w w' : store w' = store w -> frame m w w'.
Proof. intros E. split; [intros k _; now rewrite E|intros k it c H _; now rewrite E in H]. Qed.

(** A change of one menu that keeps its options. *)
Lemma frame_local m w w' :
  (forall k, k <> m -> store w' k = store w k) -> items (store w' m) = items (store w m) ->
  frame m w w'.
Proof.
  intros H1 H2. split.
  - intros k Hk. apply H1. intros ->. apply Hk, reach_here.
  - intros k it c Hin _. destruct (Nat.eq_dec k m) as [->|Hne].
    + rewrite <- H2. exact Hin.
    + rewrite <- (H1 k Hne). exact Hin.
Qed.

Lemma frame_upd m w w' n :
  store w' = upd (store w) m n ->
  (forall it c, In (Opt it) (items n) -> submenu_of it = Some c -> In (Opt it) (items (store w m))) ->
  frame m w w'.
Proof.
  intros E Hn. split.
  - intros k Hk. rewrite E. apply upd_neq. intros ->. apply Hk, reach_here.
  - intros k it c H Hc. rewrite E in H. unfold upd in H.
    destruct (Nat.eqb_spec k m) as [->|]; [eapply Hn; eassumption|exact H].
Qed.

Lemma frames_bind {A B} m (c : M A) (k : A -> M B) :
  frames m c -> (forall a, frames m (k a)) -> frames m (bind c k).
Proof.
  intros Hc Hk w b w2 H. unfold bind in H.
  destruct (c w) as [a w1| | |] eqn:E; try discriminate.
  eapply frame_trans; [eapply Hc; exact E | eapply Hk; exact H].
Qed.

Lemma framesE_bind {A B} m e (c : M A) (k : A -> M B) :
  framesE m e c -> (forall a, frames m (k a)) -> framesE m e (bind c k).
Proof.
  intros Hc Hk w b w2 Hin H. unfold bind in H.
  destruct (c w) as [a w1| | |] eqn:E; try discriminate.
  eapply frame_trans; [eapply Hc; [exact Hin|exact E] | eapply Hk; exact H].
Qed.

Lemma frames_framesE {A} m e (c : M A) : frames m c -> framesE m e c.
Proof. intros H w a w' _ E. eapply H; exact E. Qed.

Lemma frames_pure {A} m (c : M A) :
  (forall w a w', c w = Ok a w' -> store w' = store w) -> frames m c.
Proof. intros H w a w' E. apply frame_same_store. eapply H; exact E. Qed.

Lemma frames_ret {A} m (a : A) : frames m (ret a).
Proof. apply frames_pure. intros w b w' E. now injection E as _ <-. Qed.

Lemma frames_raise {A} m e : frames m (@raise A e).
Proof. intros w a w' E. discriminate. Qed.

Lemma frames_emit m o : frames m (emit o).
Proof. apply frames_pure. intros w b w' E. now injection E as _ <-. Qed.

Lemma frames_get_node m p : frames m (get_node p).
Proof. apply frames_pure. intros w b w' E. now injection E as _ <-. Qed.

Lemma frames_getmaxyx m : frames m getmaxyx.
Proof. apply frames_pure. intros w b w' E. now injection E as _ <-. Qed.

Lemma frames_get_version m : frames m get_version.
Proof. apply frames_pure. intros w b w' E. now injection E as _ <-. Qed.

Lemma frames_get_active m : frames m get_active.
Proof. apply frames_pure. intros w b w' E. now injection E as _ <-. Qed.

Lemma frames_set_active m a : frames m (set_active a).
Proof. apply frames_pure. intros w b w' E. now injection E as _ <-. Qed.

Lemma frames_getch m : frames m getch.
Proof.
  apply frames_pure. intros w b w' E. unfold getch in E.
  destruct (inputs w) as [|[c|y x|res] r]; try discriminate; now injection E as _ <-.
Qed.

Lemma frames_read_search m : frames m read_search.
Proof.
  apply frames_pure. intros w b w' E. unfold read_search in E.
  destruct (inputs w) as [|[c|y x|res] r]; try discriminate; now injection E as _ <-.
Qed.

Lemma frames_get_devices m res : frames m (get_devices res).
Proof.
  apply frames_pure. intros w b w' E. unfold get_devices, raise, ret in E.
  destruct res as [data|]; [destruct (format_devices data)|]; try discriminate.
  now injection E as _ <-.
Qed.

Lemma frames_get_put {A} m (F : jumpbox -> jumpbox) (K : jumpbox -> M A) :
  (forall n it c, In (Opt it) (items (F n)) -> submenu_of it = Some c -> In (Opt it) (items n)) ->
  (forall n, frames m (K n)) ->
  frames m (n <- get_node m ;; put_node m (F n) ;; K n).
Proof.
  intros HF HK w a w' E. cbv [bind get_node put_node] in E.
  eapply frame_trans; [|eapply HK; exact E].
  eapply frame_upd; [reflexivity|]. apply HF.
Qed.

Lemma frames_modify m (F : jumpbox -> jumpbox) :
  (forall n it c, In (Opt it) (items (F n)) -> submenu_of it = Some c -> In (Opt it) (items n)) ->
  frames m (modify_node m F).
Proof.
  intros HF w a w' E. cbv [modify_node bind get_node put_node] in E.
  injection E as _ <-. eapply frame_upd; [reflexivity|]. apply HF.
Qed.

Lemma frames_draw m : frames m (draw m).
Proof.
  intros w [] w' E. destruct (draw_ok_inv m w w' E) as (sc & Hs & Hne).
  destruct (draw_spec m w sc Hs Hne) as (w'' & Hd & Hk & (y & x & t & Hr) & _).
  rewrite E in Hd. injection Hd as <-. split.
  - intros k Hk'. destruct (Nat.eq_dec k m) as [->|Hne'].
    + exfalso. apply Hk', reach_here.
    + apply Hk, Hne'.
  - intros k it c H _. destruct (Nat.eq_dec k m) as [->|Hne'].
    + rewrite Hr in H. exact H.
    + rewrite Hk in H by exact Hne'. exact H.
Qed.

Lemma frames_clear_screen m p : frames m (clear_screen p).
Proof.
  apply frames_pure. intros w b w' E. cbv [clear_screen bind get_node emit raise] in E.
  destruct (screen (store w p)); [now injection E as _ <-|discriminate].
Qed.

Lemma removelast_incl {A} (l : list A) x : In x (removelast l) -> In x l.
Proof.
  induction l as [|a l IH]; simpl; [tauto|].
  destruct l as [|b l]; simpl in *; [tauto|]. intros [H|H]; [now left|right; auto].
Qed.

Lemma frames_add_exit m : frames m (add_exit m).
Proof.
  intros w a w' E. cbv [add_exit bind get_node put_node ret] in E.
  destruct (last_entry (items (store w m))) as [e|]; [destruct (is_exit e)|].
  - injection E as _ <-. apply frame_refl.
  - injection E as _ <-. eapply frame_upd; [reflexivity|]. simpl.
    intros it c H _. apply in_app_iff in H. destruct H as [H|[H|[]]]; [exact H|discriminate].
  - injection E as _ <-. apply frame_refl.
Qed.

Lemma frames_remove_exit m : frames m (remove_exit m).
Proof.
  intros w a w' E. cbv [remove_exit bind get_node put_node ret] in E.
  destruct (last_entry (items (store w m))) as [e|]; [destruct (is_exit e)|].
  - injection E as _ <-. eapply frame_upd; [reflexivity|]. simpl.
    intros it c H _. apply removelast_incl, H.
  - injection E as _ <-. apply frame_refl.
  - injection E as _ <-. apply frame_refl.
Qed.

Lemma getitem_In {A} (l : list A) i x : Py.getitem l i = Some x -> In x l.
Proof.
  unfold Py.getitem. intros H.
  destruct (i <? 0); [destruct (_ <? 0); [discriminate|]|]; eapply nth_error_In; exact H.
Qed.

Lemma selected_entry_spec m w e w' :
  selected_entry m w = Ok e w' -> w' = w /\ In e (items (store w m)).
Proof.
  cbv [selected_entry selected_item bind get_node ret raise]. intros H.
  destruct (negb _ && negb _); [|discriminate].
  destruct (Py.getitem (items (store w m)) (current_option (store w m))) eqn:E; [|discriminate].
  injection H as <- <-. split; [reflexivity|]. eapply getitem_In; exact E.
Qed.

Lemma frames_selected {A} m (k : entry -> M A) :
  (forall e, framesE m e (k e)) -> frames m (bind (selected_entry m) k).
Proof.
  intros Hk w a w' H. unfold bind in H.
  destruct (selected_entry m w) as [e w1| | |] eqn:E; try discriminate.
  apply selected_entry_spec in E. destruct E as [-> Hin].
  eapply Hk; [|exact H]. intros it ->. exact Hin.
Qed.

(** The side condition of [frames_get_put] and [frames_modify] when the
    update keeps or empties the options. *)
Ltac links_kept :=
  intros ? ? ? Hin_ _; simpl in Hin_; first [exact Hin_ | destruct Hin_].

Ltac fs :=
  repeat (cbv zeta; match goal with
  | |- frames _ (bind (get_node ?m) (fun n => bind (put_node ?m _) _)) =>
      apply frames_get_put; [try links_kept | intro]
  | |- frames _ (bind (selected_entry _) _) => apply frames_selected; intro
  | |- framesE _ _ (bind _ _) => apply framesE_bind; [|intro]
  | |- frames _ (bind _ _) => apply frames_bind; [|intro]
  | |- frames _ (modify_node _ _) => apply frames_modify; links_kept
  | |- frames _ (reset_menu _) => unfold reset_menu
  | |- frames _ read_search => apply frames_read_search
  | |- frames _ (get_devices _) => apply frames_get_devices
  | |- frames _ (ret _) => apply frames_ret
  | |- frames _ (raise _) => apply frames_raise
  | |- frames _ (emit _) => apply frames_emit
  | |- frames _ (get_node _) => apply frames_get_node
  | |- frames _ getmaxyx => apply frames_getmaxyx
  | |- frames _ get_version => apply frames_get_version
  | |- frames _ get_active => apply frames_get_active
  | |- frames _ (set_active _) => apply frames_set_active
  | |- frames _ getch => apply frames_getch
  | |- frames _ (draw _) => apply frames_draw
  | |- frames _ (clear_screen _) => apply frames_clear_screen
  | |- frames _ (add_exit _) => apply frames_add_exit
  | |- frames _ (remove_exit _) => apply frames_remove_exit
  | |- frames _ (go_to _ _) => unfold go_to
  | |- frames _ (go_down _) => unfold go_down
  | |- frames _ (go_up _) => unfold go_up
  | |- frames _ (release _) => unfold release
  | |- frames _ (if ?b then _ else _) => destruct b
  | |- frames _ (match ?x with Some _ => _ | None => _ end) => destruct x
  | |- frames _ (match ?p with (_, _) => _ end) => destruct p
  | |- framesE _ _ ?c =>
      lazymatch c with action _ _ _ => fail | _ => apply frames_framesE end
  end).

Lemma frames_set_up m e : frames m (set_up m e).
Proof. destruct e as [|[t [] se]]; cbn [set_up item_kind]; fs. Qed.

Lemma frames_clean_up m e : frames m (clean_up m e).
Proof. destruct e as [|[t [] se]]; cbn [clean_up item_kind]; fs. Qed.

Lemma frames_get_return m e : frames m (get_return m e).
Proof. destruct e as [|[t [] se]]; cbn [get_return item_kind]; fs. Qed.

Lemma framesE_child {A} m c it (cc : M A) :
  submenu_of it = Some c -> frames c cc -> framesE m (Opt it) cc.
Proof.
  intros Hsub Hc w a w' Hin E. destruct (Hc w a w' E) as [Hk Hs]. split; [|exact Hs].
  intros k Hk'. apply Hk. intros Hr. apply Hk'.
  eapply reach_below; [apply Hin; reflexivity | exact Hsub | exact Hr].
Qed.

Lemma frames_append_redraw m : frames m (append_redraw m).
Proof.
  intros w a w' E. cbv [append_redraw bind get_node put_node emit ret] in E.
  destruct (screen (store w m)) as [[py px]|] eqn:Hs; [|injection E as _ <-; apply frame_refl].
  destruct (py <? _) in E; cbn -[draw upd] in E;
    (eapply frame_trans; [|eapply frames_draw; exact E]);
    apply frame_local; cbn -[upd];
    [intros k Hk; rewrite !upd_neq by exact Hk; reflexivity| rewrite !upd_eq; reflexivity
    |intros k Hk; rewrite !upd_neq by exact Hk; reflexivity| rewrite !upd_eq; reflexivity].
Qed.

(** Appending a device option adds no submenu link. *)
Lemma frames_append_item m t a se : frames m (append_item m (Opt (mkItem t (KDevice a) se))).
Proof.
  rewrite append_item_split. fs.
  - intros n it c Hin Hc. simpl in Hin. apply in_app_iff in Hin.
    destruct Hin as [H|[H|[]]]; [exact H|injection H as <-; discriminate].
  - apply frames_append_redraw.
Qed.

Lemma frames_append_devices c ds : frames c (append_devices c ds).
Proof.
  induction ds as [|d ds IH]; cbn [append_devices]; fs.
  all: first [apply frames_append_item | exact IH].
Qed.

(** [fs] extended with the induction hypotheses of the run loop. *)
Ltac ih Hstart Hwrap Hmain Hloop Hproc Hsel :=
  repeat progress (fs; try first [apply Hstart | apply Hwrap | apply Hmain | apply Hloop
                                 | apply Hproc | apply Hsel | apply frames_append_devices]).

(** Every function of the run loop, started on menu [m], changes only the
    menus reachable from [m] and never adds options. *)
Lemma run_frames fuel :
  (forall m se, frames m (start fuel m se)) /\
  (forall m, frames m (wrap_start fuel m)) /\
  (forall m, frames m (main_loop fuel m)) /\
  (forall m, frames m (loop fuel m)) /\
  (forall m, frames m (process_user_input fuel m)) /\
  (forall m, frames m (select fuel m)) /\
  (forall m e, framesE m e (action fuel m e)).
Proof.
  induction fuel as [|f IH].
  - repeat match goal with |- _ /\ _ => split end; intros; hnf; intros; discriminate.
  - destruct IH as (Hstart & Hwrap & Hmain & Hloop & Hproc & Hsel & Hact).
    repeat match goal with |- _ /\ _ => split end.
    + intros m se. cbn [start]. ih Hstart Hwrap Hmain Hloop Hproc Hsel.
    + intros m. cbn [wrap_start]. ih Hstart Hwrap Hmain Hloop Hproc Hsel.
    + intros m. cbn [main_loop]. ih Hstart Hwrap Hmain Hloop Hproc Hsel.
    + intros m. cbn [loop]. ih Hstart Hwrap Hmain Hloop Hproc Hsel.
    + intros m. cbn [process_user_input]. ih Hstart Hwrap Hmain Hloop Hproc Hsel.
    + intros m. cbn [select]. ih Hstart Hwrap Hmain Hloop Hproc Hsel.
      all: first [apply Hact | apply frames_set_up | apply frames_clean_up | apply frames_get_return].
    + intros m e. cbn [action]. destruct e as [|[t kd se]]; [apply frames_framesE; fs|].
      destruct kd as [|c|tid c|c| |tid]; cbn [item_kind].
      * apply frames_framesE; fs.
      * eapply framesE_child; [reflexivity | apply Hstart].
      * eapply framesE_child; [reflexivity | apply Hstart].
      * eapply framesE_child; [reflexivity|]. ih Hstart Hwrap Hmain Hloop Hproc Hsel.
      * apply frames_framesE; fs.
      * apply frames_framesE; fs.
Qed.

(** The action of an option with a submenu [c] changes only menus reachable from [c]. *)
Lemma action_frames_child f m it c :
  submenu_of it = Some c -> frames c (action (S f) m (Opt it)).
Proof.
  destruct (run_frames f) as (Hstart & _).
  destruct it as [t kd se]; destruct kd; cbn [submenu_of item_kind action]; intro H;
    try discriminate; injection H as <-; try apply Hstart.
  repeat progress (fs; try first [apply Hstart | apply frames_append_devices]).
Qed.

(** ** Computations that leave a menu's cursor alone *)

Lemma bind_ok {A B} (c : M A) (k : A -> M B) w b w2 :
  bind c k w = Ok b w2 -> exists a w1, c w = Ok a w1 /\ k a w1 = Ok b w2.
Proof.
  unfold bind. destruct (c w) as [a w1| | |]; try discriminate. intros H. now exists a, w1.
Qed.

Lemma keeps_bind {A B} P (c : M A) (k : A -> M B) :
  keeps P c -> (forall a, keeps P (k a)) -> keeps P (bind c k).
Proof.
  intros Hc Hk w b w2 H. destruct (bind_ok _ _ _ _ _ H) as (a & w1 & E1 & E2).
  rewrite (Hk a w1 b w2 E2). exact (Hc w a w1 E1).
Qed.

Lemma keeps_pure {A} P (c : M A) :
  (forall w a w', c w = Ok a w' -> store w' = store w) -> keeps P c.
Proof. intros H w a w' E. now rewrite (H w a w' E). Qed.

Lemma keeps_ret {A} P (a : A) : keeps P (ret a).
Proof. apply keeps_pure. intros w b w' E. now injection E as _ <-. Qed.

Lemma keeps_raise {A} P e : keeps P (@raise A e).
Proof. intros w a w' E. discriminate. Qed.

Lemma keeps_emit P o : keeps P (emit o).
Proof. apply keeps_pure. intros w b w' E. now injection E as _ <-. Qed.

Lemma keeps_get_node P m : keeps P (get_node m).
Proof. apply keeps_pure. intros w b w' E. now injection E as _ <-. Qed.

Lemma keeps_modify P m F :
  (forall n, cursor_state (F n) = cursor_state n) -> keeps P (modify_node m F).
Proof.
  intros HF w a w' E. cbv [modify_node bind get_node put_node] in E.
  injection E as _ <-. simpl. unfold upd.
  destruct (Nat.eqb_spec P m) as [->|]; [apply HF|reflexivity].
Qed.

Lemma keeps_draw P m : keeps P (draw m).
Proof.
  intros w [] w' E. destruct (draw_ok_inv m w w' E) as (sc & Hs & Hne).
  destruct (draw_spec m w sc Hs Hne) as (w1 & E1 & Hk & Hr & _).
  rewrite E in E1. injection E1 as <-.
  destruct (Nat.eq_dec P m) as [->|Hne'].
  - destruct Hr as (y & x & t & ->). reflexivity.
  - now rewrite Hk.
Qed.

Lemma keeps_clear_screen P m : keeps P (clear_screen m).
Proof.
  apply keeps_pure. intros w b w' E. cbv [clear_screen bind get_node emit raise] in E.
  destruct (screen (store w m)); [|discriminate]. now injection E as _ <-.
Qed.

Lemma selected_entry_at m w e w' :
  selected_entry m w = Ok e w' ->
  w' = w /\ Py.getitem (items (store w m)) (current_option (store w m)) = Some e.
Proof.
  cbv [selected_entry selected_item bind get_node ret raise]. intros H.
  destruct (negb _ && negb _); [|discriminate].
  destruct (Py.getitem (items (store w m)) (current_option (store w m))) eqn:E; [|discriminate].
  now injection H as <- <-.
Qed.

Lemma keeps_selected_entry P m : keeps P (selected_entry m).
Proof.
  apply keeps_pure. intros w b w' E. apply selected_entry_at in E. now destruct E as [-> _].
Qed.

Ltac ks :=
  repeat (cbv zeta; match goal with
  | |- keeps _ (bind _ _) => apply keeps_bind; [|intro]
  | |- keeps _ (modify_node _ _) => apply keeps_modify; intro; reflexivity
  | |- keeps _ (ret _) => apply keeps_ret
  | |- keeps _ (raise _) => apply keeps_raise
  | |- keeps _ (emit _) => apply keeps_emit
  | |- keeps _ (get_node _) => apply keeps_get_node
  | |- keeps _ (draw _) => apply keeps_draw
  | |- keeps _ (clear_screen _) => apply keeps_clear_screen
  | |- keeps _ (selected_entry _) => apply keeps_selected_entry
  | |- keeps _ (release _) => unfold release
  | |- keeps _ (if ?b then _ else _) => destruct b
  | |- keeps _ (match ?x with Some _ => _ | None => _ end) => destruct x
  end).

Lemma keeps_set_up P m e : keeps P (set_up m e).
Proof. destruct e as [|[t [] se]]; cbn [set_up item_kind]; ks. Qed.

Lemma keeps_clean_up P m e : keeps P (clean_up m e).
Proof. destruct e as [|[t [] se]]; cbn [clean_up item_kind]; ks. Qed.

Lemma keeps_get_return P m e : keeps P (get_return m e).
Proof. destruct e as [|[t [] se]]; cbn [get_return item_kind]; ks. Qed.

(** A menu without submenu options reaches only itself. *)
Lemma reach_leaf w c k :
  (forall it, In (Opt it) (items (store w c)) -> submenu_of it = None) -> reach w c k -> k = c.
Proof.
  intros Hl Hr. destruct Hr as [m|m c' k' it Hin Hsub _]; [reflexivity|].
  rewrite (Hl it Hin) in Hsub. discriminate.
Qed.

(** A run of appends keeps one exit item at the end. *)
Lemma count_exit_snoc l : ~ In ExitEntry l -> count_exit (l ++ [ExitEntry]) = 1%nat.
Proof.
  intros Hn. unfold count_exit. rewrite filter_app, length_app.
  change (List.length (filter is_exit l)) with (count_exit l).
  rewrite count_exit_no_exit by exact Hn. reflexivity.
Qed.

(** ** The statements *)

(** C1: a menu with no options does not work: [start] on it ends in
    [UnboundLocalError], raised by [draw] (its [index] is never bound),
    whether or not the exit item is enabled ([add_exit] adds nothing to an
    empty list). *)
Theorem start_empty_menu_fails f m w :
  items (store w m) = [] ->
  exists w', start (S (S (S f))) m None w = Raise UnboundLocalError w'.
Proof.
  intros Hit. cbn [start wrap_start].
  cbv [bind get_active modify_node get_node put_node set_active ret emit].
  cbn -[upd add_exit remove_exit main_loop clear_screen]. rewrite !upd_eq.
  cbn -[upd add_exit remove_exit main_loop clear_screen].
  destruct (show_exit_option (store w m)); cbv beta iota;
  [rewrite add_exit_empty by (cbn -[upd]; rewrite upd_eq; exact Hit)
  |rewrite remove_exit_empty by (cbn -[upd]; rewrite upd_eq; exact Hit)];
  cbn -[upd main_loop clear_screen]; rewrite !upd_eq; cbn -[upd main_loop clear_screen];
  (destruct (parent (store w m)); cbn -[upd main_loop clear_screen]);
  match goal with |- context [main_loop ?f0 ?m0 ?W] =>
    edestruct (main_loop_empty f m0 W) as (w' & Hd);
    [cbn -[upd]; rewrite !upd_eq; exact Hit | rewrite Hd] end;
  eexists; reflexivity.
Qed.

(** C3: with the exit item at the end of the options (and nowhere else),
    any sequence of [append_item] calls leaves exactly one exit item, at
    index [len(items) - 1]. *)
Theorem append_keeps_single_exit m xs w l0 :
  items (store w m) = l0 ++ [ExitEntry] -> ~ In ExitEntry l0 ->
  exists w', append_items m xs w = Ok tt w'
    /\ count_exit (items (store w' m)) = 1%nat
    /\ nth_error (items (store w' m)) (List.length (items (store w' m)) - 1) = Some ExitEntry.
Proof.
  intros Hit Hn. destruct (append_items_spec m xs w l0 Hit Hn) as (w' & l1 & H & Hit' & Hn').
  exists w'. split; [exact H|]. rewrite Hit'. split; [exact (count_exit_snoc l1 Hn')|].
  rewrite length_app. simpl. rewrite Nat.add_sub, nth_error_app2, Nat.sub_diag by lia.
  reflexivity.
Qed.

(** C4: every successful [draw] ends with the pad refresh at the scroll
    offset 0 if [C <= H], the cursor if [H + cursor < C], and [C - H]
    otherwise ([H] the terminal height, [C] the option count plus 6). *)
Theorem draw_scroll_offset m w w' :
  draw m w = Ok tt w' ->
  exists ops, trace w' = trace w ++ ops ++
    [PadRefresh (scroll_offset_spec (fst (stdscr_yx w))
                   (Z.of_nat (List.length (items (store w m))) + 6)
                   (current_option (store w m)))
                0 0 0 (fst (stdscr_yx w) - 1) (snd (stdscr_yx w) - 1)].
Proof.
  intros H. destruct (draw_ok_inv m w w' H) as (sc & Hs & Hne).
  destruct (draw_spec m w sc Hs Hne) as (w'' & Hd & _ & _ & _ & Htr).
  rewrite H in Hd. injection Hd as <-. rewrite <- top_row_of_spec. exact Htr.
Qed.

(** C5: the release of the terminal by a handoff option ([clean_up] of a
    submenu, sites, quick-connect or device option) clears the menu's pad
    and the screen, restores the program mode, then sets the cursor
    visibility to 1 and then to 0, in that order. *)
Theorem handoff_release_order m w it sc :
  item_kind it <> KPlain -> screen (store w m) = Some sc ->
  clear_screen m w = Ok tt (mkWorld (store w) (stdscr_yx w) (currently_active_menu w)
      (trace w ++ [PadClear; StdErase; StdRefresh]) (inputs w) (version w))
  /\ clean_up m (Opt it) w = Ok tt (mkWorld (store w) (stdscr_yx w) (currently_active_menu w)
      (trace w ++ [PadClear; StdErase; StdRefresh] ++ [ResetProgMode; CursSet 1; CursSet 0])
      (inputs w) (version w)).
Proof.
  intros Hk Hs. split.
  - cbv [clear_screen bind get_node emit]. rewrite Hs. simpl. now rewrite <- !app_assoc.
  - destruct it as [t k e]; simpl in Hk.
    destruct k; [congruence| | | | |];
    cbv [clean_up release clear_screen bind get_node emit item_kind]; rewrite Hs; simpl;
    now rewrite <- !app_assoc.
Qed.

(** When menu [P] selects a submenu option leading to menu [C] (and [P]
    is not reachable back from [C]), and the selection returns, [P]'s
    cursor is what it was before the descent and its recorded selection is
    that cursor. *)
Lemma select_submenu_keeps_cursor fuel P C it w w' :
  Py.getitem (items (store w P)) (current_option (store w P)) = Some (Opt it) ->
  submenu_of it = Some C ->
  ~ reach w C P ->
  select fuel P w = Ok tt w' ->
  current_option (store w' P) = current_option (store w P)
  /\ selected_option (store w' P) = current_option (store w P).
Proof.
  intros Hit Hsub Hnr H.
  destruct fuel as [|f]; [discriminate|]. cbn [select] in H.
  destruct (bind_ok _ _ _ _ _ H) as (n & w0 & E0 & H0). injection E0 as <- <-.
  destruct (bind_ok _ _ _ _ _ H0) as (u & w1 & E1 & H1). injection E1 as _ <-.
  set (w1 := mkWorld _ _ _ _ _ _) in H1.
  assert (S1 : cursor_state (store w1 P) =
               (current_option (store w P), current_option (store w P), items (store w P)))
    by (simpl; now rewrite upd_eq).
  destruct (bind_ok _ _ _ _ _ H1) as (e1 & w1' & E2 & H2).
  destruct (selected_entry_at _ _ _ _ E2) as [-> _].
  destruct (bind_ok _ _ _ _ _ H2) as (u2 & w2 & E3 & H3).
  pose proof (keeps_set_up P P e1 w1 u2 w2 E3) as S2. rewrite S1 in S2.
  assert (O2 : links_sub w2 w).
  { intros k it' c' Hin Hc'. pose proof (proj2 (frames_set_up P e1 w1 u2 w2 E3) k it' c' Hin Hc') as Hin'.
    simpl in Hin'. unfold upd in Hin'. destruct (Nat.eqb_spec k P) as [->|]; exact Hin'. }
  destruct (bind_ok _ _ _ _ _ H3) as (e2 & w2' & E4 & H4).
  destruct (selected_entry_at _ _ _ _ E4) as [-> He2].
  unfold cursor_state in S2. injection S2 as Sc Ss Si.
  rewrite Sc, Si, Hit in He2. injection He2 as <-.
  destruct (bind_ok _ _ _ _ _ H4) as (u4 & w3 & E5 & H5).
  destruct f as [|f]; [discriminate|].
  destruct (action_frames_child f P it C Hsub w2 u4 w3 E5) as [Hfr _].
  assert (S3 : store w3 P = store w2 P).
  { apply Hfr. intros Hr. apply Hnr. eapply reach_mono; eassumption. }
  assert (S4 : keeps P (e3 <- selected_entry P ;; clean_up P e3 ;;
      e4 <- selected_entry P ;; rv <- get_return P e4 ;;
      modify_node P (fun n => set_returned_value n rv) ;;
      e5 <- selected_entry P ;;
      modify_node P (fun n => set_should_exit n (entry_should_exit e5)) ;;
      n' <- get_node P ;;
      if negb n'.(should_exit) then draw P else ret tt)).
  { ks; first [apply keeps_clean_up | apply keeps_get_return]. }
  specialize (S4 w3 tt w' H5). rewrite S3 in S4. unfold cursor_state in S4.
  injection S4 as Tc Ts _. rewrite Tc, Ts, Sc, Ss. split; reflexivity.
Qed.


(** C7: [ExitItem.show] at row [index] returns the numbered row
    ["<index+1> - Exit"] without a parent and
    ["<index+1> - Return to <parent title> menu"] with one, recomputes the
    text on every call and stores it; a previously stored text is ignored. *)
Theorem exit_show_recomputed m index w :
  exit_show m index w =
    Ok (fmt_option index (match parent (store w m) with
                          | Some p => "Return to " ++ Py.str_opt (title (store w p)) ++ " menu"
                          | None => "Exit" end)%string)
       (mkWorld (upd (store w) m (set_exit_text (store w m) (exit_label w m)))
          (stdscr_yx w) (currently_active_menu w) (trace w) (inputs w) (version w))
  /\ forall t,
     exists w', exit_show m index
       (mkWorld (upd (store w) m (set_exit_text (store w m) t))
          (stdscr_yx w) (currently_active_menu w) (trace w) (inputs w) (version w))
     = Ok (fmt_option index (exit_label w m)) w'.
Proof.
  split.
  - exact (exit_show_run m index w).
  - intros t. rewrite exit_show_run. eexists. do 2 f_equal.
    unfold exit_label. simpl. rewrite upd_eq. simpl.
    destruct (parent (store w m)) as [p|]; [|reflexivity].
    unfold upd. destruct (Nat.eqb_spec p m) as [->|]; reflexivity.
Qed.

(** C8: a digit key [d] sets the cursor to [d - 1] when
    [1 <= d <= min(9, N)] and leaves the cursor alone otherwise. *)
Theorem digit_key_jumps m w f r d sc :
  screen (store w m) = Some sc -> inputs w = Key (ord_0 + d) :: r -> 0 <= d <= 9 ->
  exists w', process_user_input (S f) m w = Ok (ord_0 + d) w'
   /\ (1 <= d <= Z.min 9 (Z.of_nat (List.length (items (store w m)))) ->
       current_option (store w' m) = d - 1)
   /\ (~ (1 <= d <= Z.min 9 (Z.of_nat (List.length (items (store w m))))) ->
       current_option (store w' m) = current_option (store w m)).
Proof.
  intros Hs Hin Hd.
  remember (ord_0 + d) as k eqn:Hk.
  cbn [process_user_input]. cbv [bind getch]. rewrite Hin.
  cbn -[go_to go_down go_up draw select main_loop Z.of_nat Py.ord Py.str_int].
  set (len := Z.of_nat (List.length (items (store w m)))).
  assert (Hlen : 0 <= len) by (unfold len; lia).
  set (w1 := {| store := store w; stdscr_yx := stdscr_yx w;
                currently_active_menu := currently_active_menu w; trace := trace w;
                inputs := r; version := version w |}).
  assert (Hmax : (if len >=? 9 then ret ord_9
                  else match Py.ord (Py.str_int len) with
                       | Some c => ret c | None => raise TypeError end) w1
                 = Ok (48 + Z.min 9 len) w1).
  { destruct (len >=? 9) eqn:E.
    - apply Z.geb_le in E. cbv [ret]. unfold ord_9. f_equal. lia.
    - rewrite Z.geb_leb, Z.leb_gt in E. rewrite ord_str_small by lia.
      cbv [ret]. f_equal. lia. }
  rewrite Hmax. remember (48 + Z.min 9 len) as mx eqn:Hmx. cbv beta iota.
  destruct (andb (ord_1 <=? k) (k <=? mx)) eqn:Hc.
  - (* a digit in range: [go_to] *)
    apply andb_true_iff in Hc. destruct Hc as [Hc1 Hc2].
    apply Z.leb_le in Hc1. apply Z.leb_le in Hc2. unfold ord_1, ord_0 in *.
    assert (Hne : items (store w1 m) <> []).
    { simpl. intros He. unfold len in Hmx. rewrite He in Hmx. simpl in Hmx. lia. }
    destruct (set_cursor_draw_spec m w1 sc (fun _ => k - 48 - 1) Hs Hne)
      as (w' & Hrun & Hcur & _).
    unfold go_to, ord_0. rewrite Hrun. cbv [ret].
    exists w'. split; [reflexivity|]. split.
    + intros _. rewrite Hcur. lia.
    + intros Hn. exfalso. apply Hn. lia.
  - (* any other digit: no branch applies *)
    assert (Hout : ~ (1 <= d <= Z.min 9 len)).
    { intros Hin'. apply andb_false_iff in Hc. unfold ord_1, ord_0 in *.
      destruct Hc as [Hc|Hc]; apply Z.leb_gt in Hc; lia. }
    replace (k =? KEY_DOWN) with false by (symmetry; apply Z.eqb_neq; unfold KEY_DOWN, ord_0 in *; lia).
    replace (k =? KEY_UP) with false by (symmetry; apply Z.eqb_neq; unfold KEY_UP, ord_0 in *; lia).
    replace (k =? KEY_RIGHT) with false by (symmetry; apply Z.eqb_neq; unfold KEY_RIGHT, ord_0 in *; lia).
    replace (k =? KEY_LEFT) with false by (symmetry; apply Z.eqb_neq; unfold KEY_LEFT, ord_0 in *; lia).
    replace (k =? KEY_RESIZE) with false by (symmetry; apply Z.eqb_neq; unfold KEY_RESIZE, ord_0 in *; lia).
    replace (k =? ord_newline) with false by (symmetry; apply Z.eqb_neq; unfold ord_newline, ord_0 in *; lia).
    cbv [ret]. exists w1. split; [now subst k|]. split; [intros Hin'; tauto|reflexivity].
Qed.

(** C9: on a non-empty menu, with the cursor in range, [go_down] then
    [go_up] gives back the cursor (and leaves the options alone). *)
Theorem go_up_after_go_down m w sc :
  screen (store w m) = Some sc -> items (store w m) <> [] ->
  0 <= current_option (store w m) < Z.of_nat (List.length (items (store w m))) ->
  exists w1 w2, go_down m w = Ok tt w1 /\ go_up m w1 = Ok tt w2
    /\ current_option (store w2 m) = current_option (store w m)
    /\ items (store w2 m) = items (store w m).
Proof.
  intros Hs Hne Hr.
  destruct (set_cursor_draw_spec m w sc go_down_step Hs Hne)
    as (w1 & H1 & Hc1 & Hi1 & Hs1 & _).
  rewrite <- Hs1 in Hs. rewrite <- Hi1 in Hne.
  destruct (set_cursor_draw_spec m w1 sc go_up_step Hs Hne)
    as (w2 & H2 & Hc2 & Hi2 & _).
  exists w1, w2. split; [exact H1|]. split; [exact H2|]. split; [|congruence].
  rewrite Hc2. unfold go_up_step. rewrite Hc1, Hi1. unfold go_down_step.
  destruct (current_option (store w m) <? Z.of_nat (List.length (items (store w m))) - 1) eqn:E.
  - apply Z.ltb_lt in E. replace (current_option (store w m) + 1 >? 0) with true
      by (symmetry; apply Z.gtb_lt; lia). lia.
  - apply Z.ltb_ge in E. simpl. lia.
Qed.

(** C10: with options present and a recorded selection other than -1,
    [selected_item] is the option at the cursor, not at the recorded
    selection. *)
Theorem selected_item_reads_cursor m w :
  items (store w m) <> [] -> selected_option (store w m) <> -1 ->
  selected_item m w =
  match Py.getitem (items (store w m)) (current_option (store w m)) with
  | Some e => Ok (Some e) w
  | None => Raise IndexError w
  end.
Proof.
  intros Hne Hsel. cbv [selected_item bind get_node].
  destruct (items (store w m)) as [|e l]; [congruence|].
  apply Z.eqb_neq in Hsel. rewrite Hsel. simpl.
  destruct (Py.getitem (e :: l) (current_option (store w m))); reflexivity.
Qed.

(** ** Instances and counterexamples on the sample menus *)

(** C1 on the empty sample menu. *)
Lemma start_empty_menu_fails_witness :
  items (store w_empty 0) = [] /\
  exists w', start 3 0 None w_empty = Raise UnboundLocalError w'.
Proof. split; [reflexivity|]. apply (start_empty_menu_fails 0 0 w_empty). reflexivity. Defined.



(** C3 on menu 0, appending a plain option, the exit item and another one. *)
Lemma append_keeps_single_exit_witness :
  exists w', append_items 0 [Opt item_b; ExitEntry; Opt item_a] w_main = Ok tt w'
    /\ count_exit (items (store w' 0)) = 1%nat.
Proof.
  destruct (append_keeps_single_exit 0 [Opt item_b; ExitEntry; Opt item_a] w_main
              [Opt item_sub; Opt item_a]) as (w' & E & Hc & _).
  - reflexivity.
  - simpl. intros [H|[H|[]]]; discriminate.
  - exists w'. split; assumption.
Defined.

(** C4: menu 0 (9 rows) in 5 rows with the cursor at 2 scrolls by 2. *)
Lemma draw_scroll_offset_witness :
  exists w', draw 0 w_scroll = Ok tt w' /\
    exists ops, trace w' = ops ++ [PadRefresh 2 0 0 0 4 79].
Proof.
  exists (final_world (draw 0 w_scroll) w_scroll).
  assert (E : draw 0 w_scroll = Ok tt (final_world (draw 0 w_scroll) w_scroll))
    by (vm_compute; reflexivity).
  split; [exact E|].
  destruct (draw_scroll_offset 0 w_scroll _ E) as (ops & H). exists ops. rewrite H. reflexivity.
Defined.

(** C5 on the submenu option of menu 0. *)
Lemma handoff_release_order_witness :
  clean_up 0 (Opt item_sub) w_main = Ok tt (mkWorld (store w_main) (24, 80) None
     [PadClear; StdErase; StdRefresh; ResetProgMode; CursSet 1; CursSet 0] [] "1.0").
Proof.
  exact (proj2 (handoff_release_order 0 w_main item_sub (9, 80)
                  ltac:(discriminate) eq_refl)).
Defined.

(** C7: the exit item of menu 0, shown at row 0, reads "1 - Exit". *)
Lemma exit_label_is_numbered :
  exists w', exit_show 0 0 w_main = Ok "1 - Exit"%string w' /\ "1 - Exit"%string <> "Exit"%string.
Proof.
  exists (final_world (exit_show 0 0 w_main) w_main).
  split; [vm_compute; reflexivity | discriminate].
Defined.

(** C8: the digit 2 on menu 0 (three options) moves the cursor to 1. *)
Lemma digit_key_jumps_witness :
  exists w', process_user_input 1 0 w_digit = Ok 50 w' /\ current_option (store w' 0) = 1.
Proof.
  destruct (digit_key_jumps 0 w_digit 0 [] 2 (9, 80)) as (w' & E & Hin & _);
    [reflexivity | reflexivity | lia |].
  exists w'. split; [exact E|]. rewrite Hin by (simpl; lia). reflexivity.
Defined.

(** C9 on menu 0 from its first option. *)
Lemma go_up_after_go_down_witness :
  exists w1 w2, go_down 0 w_main = Ok tt w1 /\ go_up 0 w1 = Ok tt w2
    /\ current_option (store w2 0) = 0.
Proof.
  destruct (go_up_after_go_down 0 w_main (9, 80)) as (w1 & w2 & H1 & H2 & Hc & _);
    [reflexivity | simpl; discriminate | simpl; lia |].
  exists w1, w2. split; [exact H1|]. split; [exact H2|exact Hc].
Defined.

(** C10: selection recorded at 0, cursor at 1: the option at 1 is reported. *)
Lemma selected_item_reads_cursor_witness :
  selected_option (store w_sel 0) = 0 /\ selected_item 0 w_sel = Ok (Some (Opt item_a)) w_sel.
Proof.
  split; [reflexivity|].
  rewrite (selected_item_reads_cursor 0 w_sel); [reflexivity | simpl; discriminate | simpl; discriminate].
Defined.

(** * Further properties *)

(** ** [format_sites] *)

Lemma pop_at_middle {A} (pre r : list A) x : pop_at (pre ++ x :: r) (List.length pre) = pre ++ r.
Proof.
  unfold pop_at. rewrite firstn_app, firstn_all, Nat.sub_diag, firstn_O, app_nil_r.
  rewrite skipn_app, skipn_all2 by lia.
  replace (S (List.length pre) - List.length pre)%nat with 1%nat by lia. reflexivity.
Qed.

Lemma format_sites_loop_kept fuel :
  forall pre l, (List.length l < fuel)%nat ->
  format_sites_loop fuel (List.length pre) (pre ++ l) = pre ++ sites_kept l.
Proof.
  induction fuel as [|f IH]; intros pre l Hl; [lia|].
  destruct l as [|x r].
  - simpl. rewrite nth_error_app2, Nat.sub_diag by lia. reflexivity.
  - cbn [format_sites_loop]. rewrite nth_error_app2, Nat.sub_diag by lia. simpl nth_error.
    cbv zeta. cbn [sites_kept].
    destruct (count_devices x <=? 0).
    + rewrite pop_at_middle. destruct r as [|y r'].
      * destruct f; [reflexivity|]. cbn [format_sites_loop].
        rewrite nth_error_app2 by lia. rewrite app_nil_r.
        replace (S (List.length pre) - List.length pre)%nat with 1%nat by lia. reflexivity.
      * replace (S (List.length pre)) with (List.length (pre ++ [y]))
          by (rewrite length_app; simpl; lia).
        replace (pre ++ y :: r') with ((pre ++ [y]) ++ r') by (rewrite <- app_assoc; reflexivity).
        rewrite IH by (simpl in Hl; lia). rewrite <- app_assoc. reflexivity.
    + replace (S (List.length pre)) with (List.length (pre ++ [x]))
        by (rewrite length_app; simpl; lia).
      replace (pre ++ x :: r) with ((pre ++ [x]) ++ r) by (rewrite <- app_assoc; reflexivity).
      rewrite IH by (simpl in Hl; lia). rewrite <- app_assoc. reflexivity.
Qed.

Lemma format_sites_kept l : format_sites l = sites_kept l.
Proof. exact (format_sites_loop_kept (S (List.length l)) [] l ltac:(lia)). Qed.

Lemma sites_kept_ind (P : list site -> Prop) :
  P [] -> (forall x, P [x]) -> (forall x y r, P r -> P (y :: r) -> P (x :: y :: r)) ->
  forall l, P l.
Proof.
  intros H0 H1 H2 l. assert (H : forall n l, (List.length l <= n)%nat -> P l).
  { induction n as [|n IH]; intros [|x [|y r]] Hl; simpl in Hl; try lia; auto.
    apply H2; apply IH; simpl; lia. }
  exact (H _ l (le_n _)).
Qed.

Lemma sites_kept_good x r : 0 < count_devices x -> sites_kept (x :: r) = x :: sites_kept r.
Proof. intros H. simpl. replace (count_devices x <=? 0) with false by (symmetry; apply Z.leb_gt; lia). reflexivity. Qed.

Lemma sites_kept_bad x y r : count_devices x <= 0 -> sites_kept (x :: y :: r) = y :: sites_kept r.
Proof. intros H. simpl. replace (count_devices x <=? 0) with true by (symmetry; apply Z.leb_le; lia). reflexivity. Qed.

(** X1: [format_sites] keeps every site that has devices, in order, and
    returns only sites of its input. *)
Theorem format_sites_keeps_sites_with_devices l :
  filter has_devices (format_sites l) = filter has_devices l
  /\ incl (format_sites l) l.
Proof.
  rewrite format_sites_kept. induction l as [|x|x y r IHr IHyr] using sites_kept_ind.
  - split; [reflexivity|intros a []].
  - simpl. unfold has_devices. destruct (count_devices x <=? 0) eqn:E; simpl.
    + split; [|intros a []]. apply Z.leb_le in E. replace (0 <? count_devices x) with false
        by (symmetry; apply Z.ltb_ge; lia). reflexivity.
    + split; [|apply incl_refl]. reflexivity.
  - destruct IHr as [Fr Ir]. destruct IHyr as [Fyr Iyr].
    destruct (Z_le_gt_dec (count_devices x) 0) as [E|E].
    + rewrite sites_kept_bad by exact E.
      assert (Hx : has_devices x = false) by (apply Z.ltb_ge; exact E).
      split.
      * cbn [filter]. rewrite Hx. destruct (has_devices y); rewrite Fr; reflexivity.
      * intros a [<-|Ha]; [right; left; reflexivity|right; right; apply Ir, Ha].
    + rewrite sites_kept_good by lia.
      assert (Hx : has_devices x = true) by (apply Z.ltb_lt; lia).
      split.
      * change (filter has_devices (x :: sites_kept (y :: r)) = filter has_devices (x :: y :: r)).
        cbn [filter]. rewrite Hx. f_equal. exact Fyr.
      * intros a [<-|Ha]; [left; reflexivity|right; apply Iyr, Ha].
Qed.

(** X2: when no two adjacent sites both lack devices, [format_sites]
    removes exactly the sites without devices. *)
Theorem format_sites_drops_isolated_empty l :
  no_adjacent_empty l = true -> format_sites l = filter has_devices l.
Proof.
  rewrite format_sites_kept. induction l as [|x|x y r IHr IHyr] using sites_kept_ind; intros H.
  - reflexivity.
  - simpl. unfold has_devices. destruct (count_devices x <=? 0) eqn:E.
    + apply Z.leb_le in E. replace (0 <? count_devices x) with false
        by (symmetry; apply Z.ltb_ge; lia). reflexivity.
    + apply Z.leb_gt in E. replace (0 <? count_devices x) with true
        by (symmetry; apply Z.ltb_lt; lia). reflexivity.
  - change (((has_devices x || has_devices y) && no_adjacent_empty (y :: r))%bool = true) in H.
    apply andb_true_iff in H. destruct H as [Hxy Hyr].
    assert (Hr : no_adjacent_empty r = true).
    { destruct r as [|z r']; [reflexivity|].
      change (((has_devices y || has_devices z) && no_adjacent_empty (z :: r'))%bool = true) in Hyr.
      apply andb_true_iff in Hyr. apply Hyr. }
    destruct (Z_le_gt_dec (count_devices x) 0) as [E|E].
    + rewrite sites_kept_bad by exact E.
      assert (Hx : has_devices x = false) by (apply Z.ltb_ge; exact E).
      rewrite Hx in Hxy. simpl in Hxy.
      cbn [filter]. rewrite Hx, Hxy. f_equal. apply IHr, Hr.
    + rewrite sites_kept_good by lia. rewrite (IHyr Hyr).
      cbn [filter]. replace (has_devices x) with true by (symmetry; apply Z.ltb_lt; lia).
      reflexivity.
Qed.

Lemma sites_kept_good_prefix pre l :
  Forall (fun s => 0 < count_devices s) pre -> sites_kept (pre ++ l) = pre ++ sites_kept l.
Proof.
  intros H. induction H as [|x pre Hx _ IH]; [reflexivity|].
  cbn [app]. rewrite sites_kept_good by exact Hx. rewrite IH. reflexivity.
Qed.

(** X3: wherever the loop of [format_sites] pops a site without devices,
    the next site moves into its index and is kept unexamined: at index
    [len pre] of [pre ++ x :: y :: r] with [x] empty, the loop leaves
    [pre] alone, keeps [y] and goes on with [r] as from the start; so
    after a prefix of sites with devices, [format_sites] keeps the site
    after an empty one. *)
Theorem format_sites_skips_next pre x y r :
  count_devices x <= 0 ->
  (forall fuel, (List.length (x :: y :: r) < fuel)%nat ->
     format_sites_loop fuel (List.length pre) (pre ++ x :: y :: r) = pre ++ y :: format_sites r)
  /\ (Forall (fun s => 0 < count_devices s) pre ->
      format_sites (pre ++ x :: y :: r) = pre ++ y :: format_sites r).
Proof.
  intros H. split.
  - intros fuel Hf. rewrite format_sites_loop_kept by exact Hf.
    rewrite sites_kept_bad by exact H. rewrite format_sites_kept. reflexivity.
  - intros Hp. rewrite !format_sites_kept, sites_kept_good_prefix by exact Hp.
    rewrite sites_kept_bad by exact H. reflexivity.
Qed.

(** ** [format_devices] *)

Lemma list_ascii_app (a b : string) :
  list_ascii_of_string (a ++ b) = list_ascii_of_string a ++ list_ascii_of_string b.
Proof. induction a as [|c a IH]; simpl; [reflexivity|now rewrite IH]. Qed.

Lemma string_of_list_ascii_inv (a : string) : string_of_list_ascii (list_ascii_of_string a) = a.
Proof. induction a as [|c a IH]; simpl; [reflexivity|now rewrite IH]. Qed.

Lemma star_digits_end t :
  In "/"%char t -> star ADigit (match_here [REnd]) t = None.
Proof.
  induction t as [|c t IH]; intros H; [destruct H|].
  destruct H as [->|H].
  - simpl. destruct t as [|? [|? ?]]; reflexivity.
  - cbn [star atom_ok]. rewrite (IH H). destruct (is_digit c);
    destruct t as [|c' [|c'' t]]; simpl in H; try tauto; reflexivity.
Qed.

Lemma cidr_no_match x t : In "/"%char t -> match_here cidr_re (x :: t) = None.
Proof.
  intros H. simpl. destruct (Ascii.eqb x "/"); [|reflexivity].
  destruct t as [|c t]; [destruct H|]. simpl.
  destruct (is_digit c) eqn:Ec; [|reflexivity].
  destruct H as [->|H]; [discriminate Ec|]. apply star_digits_end, H.
Qed.

Lemma star_all_digits k t r :
  forallb is_digit t = true -> k [] = Some r -> star ADigit k t = Some r.
Proof.
  induction t as [|c t IH]; simpl; intros Hd Hk; [exact Hk|].
  apply andb_true_iff in Hd. destruct Hd as [-> Hd]. now rewrite (IH Hd Hk).
Qed.

Lemma cidr_match ds :
  ds <> [] -> forallb is_digit ds = true -> match_here cidr_re ("/"%char :: ds) = Some [].
Proof.
  intros Hne Hd. destruct ds as [|d ds]; [congruence|]. simpl in Hd |- *.
  apply andb_true_iff in Hd. destruct Hd as [-> Hd]. apply star_all_digits; [exact Hd|reflexivity].
Qed.

Lemma search_app p a t r : match_here p t = Some r -> search p (a ++ t) = true.
Proof.
  intros H. induction a as [|c a IH]; simpl.
  - destruct t; simpl; rewrite H; reflexivity.
  - destruct (match_here p (c :: a ++ t)); [reflexivity|exact IH].
Qed.

Lemma sub_loop_nil fuel p : sub_loop fuel p [] = [].
Proof. destruct fuel; reflexivity. Qed.

Lemma sub_loop_cidr a ds fuel :
  ds <> [] -> forallb is_digit ds = true -> (List.length a < fuel)%nat ->
  sub_loop fuel cidr_re (a ++ "/"%char :: ds) = a.
Proof.
  intros Hne Hd. revert fuel. induction a as [|x a IH]; intros fuel Hf;
    (destruct fuel as [|f]; [simpl in Hf; lia|]).
  - simpl app. cbn [sub_loop]. rewrite cidr_match by assumption. simpl.
    apply sub_loop_nil.
  - simpl app. cbn [sub_loop]. rewrite cidr_no_match.
    + f_equal. apply IH. simpl in Hf. lia.
    + apply in_or_app. right. left. reflexivity.
Qed.

Lemma search_no_slash s : ~ In "/"%char s -> search cidr_re s = false.
Proof.
  induction s as [|c s IH]; intros H; [reflexivity|]. simpl.
  destruct (Ascii.eqb_spec c "/") as [->|Hc]; [exfalso; apply H; now left|].
  apply IH. intros H'. apply H. now right.
Qed.

(** X4: [format_devices] turns an address [A/N], with [N] one or more
    digits, into [A]. *)
Theorem clean_address_strips_prefix_length (a n : string) :
  n <> EmptyString -> forallb is_digit (list_ascii_of_string n) = true ->
  clean_address (a ++ "/" ++ n) = a.
Proof.
  intros Hne Hd.
  assert (Hne' : list_ascii_of_string n <> []) by (destruct n; simpl; congruence).
  unfold clean_address, search_str, sub. rewrite !list_ascii_app. simpl list_ascii_of_string.
  rewrite (search_app _ _ _ [] (cidr_match _ Hne' Hd)).
  change (["/"%char] ++ list_ascii_of_string n) with ("/"%char :: list_ascii_of_string n).
  rewrite sub_loop_cidr by (try assumption; rewrite length_app; simpl; lia).
  apply string_of_list_ascii_inv.
Qed.

(** X5: [format_devices] leaves an address without a slash unchanged. *)
Theorem clean_address_no_slash (a : string) :
  existsb (fun c => Ascii.eqb c "/") (list_ascii_of_string a) = false -> clean_address a = a.
Proof.
  intros H. unfold clean_address, search_str. rewrite search_no_slash; [reflexivity|].
  intros Hin. assert (E : existsb (fun c => Ascii.eqb c "/") (list_ascii_of_string a) = true)
    by (apply existsb_exists; exists "/"%char; split; [exact Hin|apply Ascii.eqb_refl]).
  congruence.
Qed.

Lemma digit_not_newline c : is_digit c = true -> Ascii.eqb c newline = false.
Proof. intros H. destruct (Ascii.eqb_spec c newline) as [->|]; [discriminate H|reflexivity]. Qed.

Lemma digit_not_dash c : is_digit c = true -> Ascii.eqb c "-" = false.
Proof. intros H. destruct (Ascii.eqb_spec c "-") as [->|]; [discriminate H|reflexivity]. Qed.

Lemma member_match d : is_digit d = true -> match_here member_re ["-"%char; d] = Some [].
Proof. intros Hd. simpl. now rewrite Hd. Qed.

Lemma member_no_match x pre d :
  is_digit d = true -> match_here member_re (x :: pre ++ ["-"%char; d]) = None.
Proof.
  intros Hd. destruct pre as [|y [|z [|z' pre]]]; simpl;
    destruct (Ascii.eqb x "-"); try reflexivity;
    try (destruct (is_digit y); reflexivity).
Qed.

Lemma sub_loop_member n d fuel :
  is_digit d = true -> (List.length n < fuel)%nat ->
  sub_loop fuel member_re (n ++ ["-"%char; d]) = n.
Proof.
  intros Hd. revert fuel. induction n as [|x n IH]; intros fuel Hf;
    (destruct fuel as [|f]; [simpl in Hf; lia|]).
  - simpl app. cbn [sub_loop]. rewrite member_match by exact Hd. simpl. apply sub_loop_nil.
  - simpl app. cbn [sub_loop]. rewrite member_no_match by exact Hd.
    f_equal. apply IH. simpl in Hf. lia.
Qed.

Lemma search_member_two n d1 d2 :
  is_digit d1 = true -> is_digit d2 = true ->
  search member_re (n ++ ["-"%char; d1; d2]) = false.
Proof.
  intros H1 H2. induction n as [|x n IH].
  - simpl. rewrite H1, (digit_not_newline d2 H2), (digit_not_dash d1 H1),
      (digit_not_dash d2 H2). reflexivity.
  - simpl app. cbn [search]. rewrite IH.
    replace (match_here member_re (x :: n ++ ["-"%char; d1; d2])) with (@None (list ascii));
      [reflexivity|].
    destruct n as [|y [|z [|z' n]]]; simpl; destruct (Ascii.eqb x "-"); try reflexivity;
      try (destruct (is_digit y); reflexivity).
Qed.

(** X6: [format_devices] drops a final dash and single digit from a
    display name, but keeps a final dash followed by two digits. *)
Theorem clean_name_member_suffix (n : string) (d d1 d2 : ascii) :
  is_digit d = true -> is_digit d1 = true -> is_digit d2 = true ->
  clean_name (n ++ String "-" (String d EmptyString)) = n
  /\ clean_name (n ++ String "-" (String d1 (String d2 EmptyString)))
     = (n ++ String "-" (String d1 (String d2 EmptyString)))%string.
Proof.
  intros Hd H1 H2. split.
  - unfold clean_name, search_str, sub. rewrite !list_ascii_app. simpl list_ascii_of_string.
    rewrite (search_app _ _ _ [] (member_match d Hd)).
    rewrite sub_loop_member by (try assumption; rewrite length_app; simpl; lia).
    apply string_of_list_ascii_inv.
  - unfold clean_name, search_str. rewrite list_ascii_app. simpl list_ascii_of_string.
    now rewrite search_member_two.
Qed.

(** X7: one device with a null [primary_ip] anywhere in the list makes
    [format_devices] raise TypeError. *)
Theorem format_devices_null_ip data d :
  In d data -> primary_ip d = None -> format_devices data = inl TypeError.
Proof.
  intros Hin Hn. unfold format_devices.
  enough (H : strip_addresses data = inl TypeError) by now rewrite H.
  induction data as [|x data IH]; [destruct Hin|]. simpl.
  destruct Hin as [->|Hin]; [now rewrite Hn|].
  destruct (primary_ip x); [|reflexivity]. now rewrite IH.
Qed.

(** X8: when every device has a [primary_ip], [format_devices] cleans each
    device on its own and keeps their number and order. *)
Theorem format_devices_each data :
  (forall d, In d data -> primary_ip d <> None) ->
  format_devices data =
  inr (map (fun d => mkDevice (clean_name (display_name d)) (option_map clean_address (primary_ip d))) data).
Proof.
  intros H. unfold format_devices.
  enough (E : strip_addresses data =
              inr (map (fun d => mkDevice (display_name d) (option_map clean_address (primary_ip d))) data))
    by (rewrite E, map_map; reflexivity).
  induction data as [|x data IH]; [reflexivity|]. simpl.
  destruct (primary_ip x) as [a|] eqn:Ex; [|exfalso; exact (H x (or_introl eq_refl) Ex)].
  rewrite IH by (intros d Hd; apply H; now right). reflexivity.
Qed.

(** ** [append_item] *)

Lemma append_redraw_none m w :
  screen (store w m) = None -> append_redraw m w = Ok tt w.
Proof. intros Hs. cbv [append_redraw bind get_node ret]. now rewrite Hs. Qed.

Lemma append_redraw_some m w py px :
  screen (store w m) = Some (py, px) -> items (store w m) <> [] ->
  exists w', append_redraw m w = Ok tt w'
   /\ items (store w' m) = items (store w m)
   /\ screen (store w' m) =
        Some (if py <? 6 + Z.of_nat (List.length (items (store w m)))
              then (Z.of_nat (List.length (items (store w m))) + 6, px) else (py, px))
   /\ (forall k, k <> m -> store w' k = store w k).
Proof.
  intros Hs Hne. cbv [append_redraw bind get_node put_node emit ret]. rewrite Hs.
  destruct (py <? 6 + Z.of_nat (List.length (items (store w m)))).
  - cbn -[upd draw]. rewrite !upd_eq. cbn -[upd draw].
    match goal with |- context [draw ?m0 ?W] =>
      edestruct (draw_spec m0 W) as (w' & Hd & Hk & (y & x & t & Hr) & _ & _);
      [cbn -[upd]; rewrite ?upd_eq; reflexivity
      |cbn -[upd]; rewrite ?upd_eq; exact Hne
      |rewrite Hd] end.
    exists w'. split; [reflexivity|]. rewrite Hr. cbn -[upd]. rewrite !upd_eq. cbn.
    split; [reflexivity|]. split; [reflexivity|].
    intros k Hkm. rewrite Hk by exact Hkm. cbn -[upd]. rewrite !upd_neq by exact Hkm. reflexivity.
  - cbn -[upd draw]. idtac.
    match goal with |- context [draw ?m0 ?W] =>
      edestruct (draw_spec m0 W) as (w' & Hd & Hk & (y & x & t & Hr) & _ & _);
      [cbn -[upd]; rewrite ?upd_eq; exact Hs
      |cbn -[upd]; rewrite ?upd_eq; exact Hne
      |rewrite Hd] end.
    exists w'. split; [reflexivity|]. rewrite Hr. cbn -[upd]. rewrite !upd_eq. cbn.
    split; [reflexivity|]. split; [now rewrite Hs|].
    intros k Hkm. rewrite Hk by exact Hkm. cbn -[upd]. rewrite !upd_neq by exact Hkm. reflexivity.
Qed.

Lemma exit_at_end_dec (l : list entry) :
  {l0 | l = l0 ++ [ExitEntry]} + {forall l0, l <> l0 ++ [ExitEntry]}.
Proof.
  destruct (last_entry l) as [[|it]|] eqn:E.
  - left. exists (removelast l). destruct l as [|x l]; [discriminate|].
    simpl in E. injection E as E. rewrite <- E.
    replace (last l x) with (last (x :: l) x) by (destruct l; reflexivity).
    apply app_removelast_last. discriminate.
  - right. intros l0 ->. rewrite last_entry_snoc in E. discriminate.
  - right. intros l0 ->. rewrite last_entry_snoc in E. discriminate.
Qed.

Lemma remove_exit_no_exit m w :
  (forall l0, items (store w m) <> l0 ++ [ExitEntry]) -> remove_exit m w = Ok false w.
Proof.
  intros Hno. cbv [remove_exit bind get_node ret].
  destruct (exit_at_end_dec (items (store w m))) as [[l0 E]|_]; [exfalso; exact (Hno l0 E)|].
  destruct (last_entry (items (store w m))) as [[|it]|] eqn:E; try reflexivity.
  exfalso. destruct (items (store w m)) as [|x l] eqn:Hit; [discriminate|].
  apply (Hno (removelast (x :: l))). simpl in E. injection E as E. rewrite <- E.
  replace (last l x) with (last (x :: l) x) by (destruct l; reflexivity).
  apply app_removelast_last. discriminate.
Qed.

(** X9: on a menu whose last entry is not its exit item (an empty menu,
    for one), [append_item] appends the entry and adds no exit item. *)
Theorem append_item_without_exit m w e :
  last_entry (items (store w m)) <> Some ExitEntry ->
  exists w', append_item m e w = Ok tt w'
    /\ items (store w' m) = items (store w m) ++ [e]
    /\ (forall k, k <> m -> store w' k = store w k).
Proof.
  intros Hl. assert (Hno : forall l0, items (store w m) <> l0 ++ [ExitEntry])
    by (intros l0 E; apply Hl; rewrite E; apply last_entry_snoc).
  rewrite append_item_split. cbv [bind].
  rewrite (remove_exit_no_exit m w Hno). cbv [get_node put_node ret].
  set (w2 := mkWorld _ _ _ _ _ _).
  assert (Hi : items (store w2 m) = items (store w m) ++ [e]) by (unfold w2; simpl; now rewrite upd_eq).
  assert (Hk2 : forall k, k <> m -> store w2 k = store w k) by (intros k Hk; unfold w2; simpl; now rewrite upd_neq).
  destruct (screen (store w2 m)) as [[py px]|] eqn:Hs.
  - destruct (append_redraw_some m w2 py px Hs) as (w' & Hr & Hi' & _ & Hk');
      [rewrite Hi; intro H; destruct (items (store w m)); discriminate|].
    rewrite Hr. exists w'. split; [reflexivity|]. split; [congruence|].
    intros k Hk. rewrite Hk' by exact Hk. now apply Hk2.
  - rewrite (append_redraw_none m w2 Hs). exists w2. auto.
Qed.

(** X10: on a menu with a pad, [append_item] succeeds and leaves a pad of
    [max(rows, len(items) + 6)] rows with the same width. *)
Theorem append_item_grows_pad m w e py px :
  screen (store w m) = Some (py, px) ->
  exists w', append_item m e w = Ok tt w'
    /\ screen (store w' m) =
       Some (Z.max py (Z.of_nat (List.length (items (store w' m))) + 6), px).
Proof.
  intros Hs. rewrite append_item_split. cbv [bind].
  destruct (exit_at_end_dec (items (store w m))) as [[l0 E]|Hno].
  - rewrite (remove_exit_at_end m w l0 E). cbv [get_node put_node ret].
    cbn -[upd add_exit append_redraw]. rewrite upd_eq.
    rewrite (add_exit_snoc m _ l0 e) by (cbn -[upd]; rewrite upd_eq; reflexivity).
    destruct (is_exit e); cbn -[upd append_redraw].
    all: match goal with |- context [append_redraw ?m0 ?W] =>
           destruct (append_redraw_some m0 W py px) as (w' & Hr & Hi' & Hs' & _);
           [cbn -[upd]; rewrite ?upd_eq; exact Hs
           |cbn -[upd]; rewrite ?upd_eq; cbn; intro H; destruct l0; discriminate H
           |rewrite Hr; exists w'; split; [reflexivity|]; rewrite Hs', Hi'] end.
    all: match goal with |- Some (if ?a <? ?b then _ else _) = _ =>
           destruct (Z.ltb_spec a b); f_equal; f_equal; lia end.
  - rewrite (remove_exit_no_exit m w Hno). cbv [get_node put_node ret].
    cbn -[upd append_redraw].
    match goal with |- context [append_redraw ?m0 ?W] =>
      destruct (append_redraw_some m0 W py px) as (w' & Hr & Hi' & Hs' & _);
      [cbn -[upd]; rewrite ?upd_eq; exact Hs
      |cbn -[upd]; rewrite ?upd_eq; cbn; intro H; destruct (items (store w m)); discriminate H
      |rewrite Hr; exists w'; split; [reflexivity|]; rewrite Hs', Hi'] end.
    match goal with |- Some (if ?a <? ?b then _ else _) = _ =>
      destruct (Z.ltb_spec a b); f_equal; f_equal; lia end.
Qed.

(** ** [draw] *)

Lemma row_ops_ext w1 w2 m c l : exit_label w1 m = exit_label w2 m ->
  forall i, row_ops w1 m c l i = row_ops w2 m c l i.
Proof.
  intros He. induction l as [|e l IH]; intros i; simpl; [reflexivity|].
  rewrite IH. destruct e; simpl; rewrite ?He; reflexivity.
Qed.

Lemma exit_label_set_exit_text w m t st y i o v :
  exit_label (mkWorld (upd (store w) m (set_exit_text (store w m) t)) st y i o v) m = exit_label w m.
Proof.
  unfold exit_label. simpl. rewrite upd_eq. simpl. destruct (parent (store w m)) as [p|]; [|reflexivity].
  destruct (Nat.eq_dec p m) as [->|Hp]; [now rewrite upd_eq|now rewrite upd_neq].
Qed.

Lemma draw_items_trace m l : forall i last w r w',
  draw_items m l i last w = Ok r w' ->
  trace w' = trace w ++ row_ops w m (current_option (store w m)) l i.
Proof.
  induction l as [|e l IH]; intros i last w r w' H.
  - cbv [draw_items ret] in H. injection H as _ <-. simpl. now rewrite app_nil_r.
  - rewrite draw_items_cons in H. destruct e as [|it]; simpl in H.
    + rewrite exit_show_run in H. apply IH in H. rewrite H.
      cbn [store trace stdscr_yx currently_active_menu inputs version].
      rewrite upd_eq, <- app_assoc. cbn [set_exit_text current_option app row_ops entry_text].
      erewrite row_ops_ext; [reflexivity|]. apply exit_label_set_exit_text.
    + apply IH in H. rewrite H. cbn [store trace current_option]. rewrite <- app_assoc. erewrite row_ops_ext; reflexivity.
Qed.

(** X11: [draw] writes, in order: the border, the title and subtitle when
    set, one row per entry from row 5 on (highlighted at the cursor), the
    version on the row of the last entry, right-aligned against the
    terminal width stored before this call, and the pad refresh. *)
Theorem draw_writes_layout m w sc :
  screen (store w m) = Some sc -> items (store w m) <> [] ->
  exists w', draw m w = Ok tt w'
   /\ trace w' = trace w ++ [Border]
        ++ (match title (store w m) with Some t => [AddStr 2 2 t A_UNDERLINE] | None => [] end)
        ++ (match subtitle (store w m) with Some s => [AddStr 4 2 s A_BOLD] | None => [] end)
        ++ row_ops w m (current_option (store w m)) (items (store w m)) 0
        ++ [AddStr (Z.of_nat (List.length (items (store w m))) + 4)
              (term_x (store w m) - Z.of_nat (String.length (version w)) - 2) (version w) A_BOLD;
            PadRefresh (top_row_of (Z.of_nat (List.length (items (store w m))))
                          (fst (stdscr_yx w)) (current_option (store w m)))
              0 0 0 (fst (stdscr_yx w) - 1) (snd (stdscr_yx w) - 1)].
Proof.
  intros Hs Hne.
  cbv [draw bind get_node emit ret get_version getmaxyx put_node]. rewrite Hs.
  destruct (title (store w m)) eqn:Ht0; destruct (subtitle (store w m)) eqn:Hs0;
    cbn -[draw_items upd top_row_of app].
  all: match goal with |- context [draw_items ?m0 ?l 0 None ?w1] =>
      destruct (draw_items_spec m0 l 0 None w1)
        as (w1' & r & Hrun & Hk & (t' & Ht) & Henv & _ & Hr);
      pose proof (draw_items_trace m0 l 0 None w1 r w1' Hrun) as Htr;
      rewrite Hrun end.
  all: destruct (items (store w m)) as [|e l] eqn:Hit; [congruence|]; subst r.
  all: cbn -[draw_items upd top_row_of app row_ops].
  all: destruct Henv as (E1 & E2 & E3 & E4); cbn in E1, E2, E3, E4, Hk, Ht, Htr.
  all: eexists; split; [reflexivity|]; cbn -[row_ops top_row_of].
  all: rewrite (row_ops_ext _ w) in Htr by reflexivity.
  all: rewrite Htr, Ht, E1, E4; cbn [set_exit_text term_x items current_option store].
  all: rewrite <- !app_assoc.
  all: rewrite ?Hit; cbn [entry_text exit_label store row_ops app List.length].
  all: repeat f_equal.
  all: destruct (Pos.of_succ_nat (List.length l)) as [p|p|]; lia.
Qed.

(** ** [process_user_input] *)

Lemma selected_entry_ok m w e :
  items (store w m) <> [] -> selected_option (store w m) <> -1 ->
  Py.getitem (items (store w m)) (current_option (store w m)) = Some e ->
  selected_entry m w = Ok e w.
Proof.
  intros Hne Hsel Hg. cbv [selected_entry selected_item bind get_node ret].
  destruct (items (store w m)) as [|x l]; [congruence|].
  apply Z.eqb_neq in Hsel. rewrite Hsel. simpl. rewrite Hg. reflexivity.
Qed.

Lemma getitem_last {A} (l0 : list A) x : Py.getitem (l0 ++ [x]) (Z.of_nat (List.length l0)) = Some x.
Proof.
  unfold Py.getitem. replace (Z.of_nat (List.length l0) <? 0) with false by (symmetry; apply Z.ltb_ge; lia).
  rewrite Nat2Z.id, nth_error_app2, Nat.sub_diag by lia. reflexivity.
Qed.

Lemma go_to_max_ok w n : 0 <= n ->
  (if n >=? 9 then ret ord_9
   else match Py.ord (Py.str_int n) with Some c => ret c | None => raise TypeError end) w
  = Ok (48 + Z.min 9 n) w.
Proof.
  intros Hn. destruct (n >=? 9) eqn:E.
  - apply Z.geb_le in E. cbv [ret]. unfold ord_9. f_equal. lia.
  - rewrite Z.geb_leb, Z.leb_gt in E. rewrite ord_str_small by lia. cbv [ret]. f_equal. lia.
Qed.

(** Selecting the exit entry at the end of a menu: nothing runs, the menu
    records the selection, keeps its returned value and is marked to exit. *)
Lemma select_exit f m w l0 :
  items (store w m) = l0 ++ [ExitEntry] ->
  current_option (store w m) = Z.of_nat (List.length l0) ->
  exists w', select (S (S f)) m w = Ok tt w'
   /\ store w' m = set_should_exit (set_returned_value
                      (set_selected_option (store w m) (Z.of_nat (List.length l0)))
                      (returned_value (store w m))) true
   /\ (forall k, k <> m -> store w' k = store w k)
   /\ trace w' = trace w /\ inputs w' = inputs w /\ env_eq w w'.
Proof.
  intros Hit Hcur. cbn [select action].
  cbv [bind get_node put_node modify_node ret set_up clean_up get_return].
  repeat (match goal with |- context [selected_entry ?m0 ?W] =>
          rewrite (selected_entry_ok m0 W ExitEntry);
          [cbv beta iota
          |cbn -[upd]; rewrite ?upd_eq; cbn; rewrite Hit; destruct l0; discriminate
          |cbn -[upd]; rewrite ?upd_eq; cbn; rewrite Hcur; lia
          |cbn -[upd]; rewrite ?upd_eq; cbn; rewrite Hit, Hcur; apply getitem_last] end).
  cbn -[upd]. rewrite !upd_eq. cbn -[upd].
  eexists. split; [reflexivity|]. cbn -[upd]. rewrite !upd_eq. split.
  - cbn. rewrite Hcur. reflexivity.
  - split; [intros k Hk; rewrite !upd_neq by exact Hk; reflexivity|].
    split; [reflexivity|]. split; [reflexivity|]. unfold env_eq; repeat split.
Qed.

(** KEY_LEFT in a running menu whose last entry is its exit item: the
    menu after the key, and the loop ends. *)
Lemma loop_key_left f m w r l0 :
  inputs w = Key KEY_LEFT :: r -> items (store w m) = l0 ++ [ExitEntry] ->
  running (store w m) = true -> should_exit (store w m) = false ->
  exists w', loop (S (S (S (S f)))) m w = Ok tt w'
   /\ store w' m = set_should_exit (set_returned_value (set_selected_option
        (set_current_option (store w m) (Z.of_nat (List.length l0))) (Z.of_nat (List.length l0)))
        (returned_value (store w m))) true
   /\ (forall k, k <> m -> store w' k = store w k)
   /\ trace w' = trace w /\ inputs w' = r
   /\ currently_active_menu w' = currently_active_menu w /\ stdscr_yx w' = stdscr_yx w
   /\ version w' = version w.
Proof.
  intros Hin Hit Hrun Hse.
  cbn [loop]. cbv [bind get_node]. rewrite Hrun, Hse. cbn [andb negb].
  cbn [process_user_input]. cbv [bind getch]. rewrite Hin.
  cbn -[go_to go_down go_up draw select main_loop loop Z.of_nat Py.ord Py.str_int].
  rewrite go_to_max_ok by lia.
  remember (48 + Z.min 9 (Z.of_nat (List.length (items (store w m))))) as mx eqn:Hmx.
  cbv beta iota.
  cbn -[go_to go_down go_up draw select main_loop loop Z.of_nat upd].
  replace (KEY_LEFT <=? mx) with false by (symmetry; apply Z.leb_gt; unfold KEY_LEFT; lia).
  cbv beta iota.
  match goal with |- context [select _ _ ?W] => set (w1 := W) end.
  destruct (select_exit f m w1 l0) as (w2 & Hs & Hn & Hk & Ht & Hi & He);
    [unfold w1; cbn -[upd]; rewrite upd_eq; cbn; exact Hit
    |unfold w1; cbn -[upd]; rewrite upd_eq; cbn; rewrite Hit, length_app; simpl; lia|].
  rewrite Hs. cbn [loop]. cbv [bind get_node ret]. rewrite Hn. cbn [should_exit set_should_exit andb negb].
  rewrite andb_false_r.
  destruct He as (E1 & E2 & _ & E4).
  exists w2. split; [reflexivity|]. rewrite Hn. unfold w1 in *; cbn -[upd] in *. rewrite upd_eq.
  assert (El : Z.of_nat (List.length (items (store w m))) - 1 = Z.of_nat (List.length l0))
    by (rewrite Hit, length_app; simpl; lia).
  rewrite El. split; [reflexivity|].
  split; [intros k Hkm; rewrite Hk by exact Hkm; now apply upd_neq|].
  repeat split; assumption.
Qed.

(** X12: KEY_LEFT in a running menu whose last entry is its exit item moves
    the cursor to the exit item and selects it; nothing is drawn or
    called, and the [while] loop of the menu ends after this key. *)
Theorem key_left_leaves_menu f m w r l0 :
  inputs w = Key KEY_LEFT :: r -> items (store w m) = l0 ++ [ExitEntry] ->
  running (store w m) = true -> should_exit (store w m) = false ->
  exists w', loop (S (S (S (S f)))) m w = Ok tt w'
   /\ should_exit (store w' m) = true
   /\ current_option (store w' m) = Z.of_nat (List.length l0)
   /\ selected_option (store w' m) = Z.of_nat (List.length l0)
   /\ returned_value (store w' m) = returned_value (store w m)
   /\ items (store w' m) = items (store w m)
   /\ (forall k, k <> m -> store w' k = store w k)
   /\ trace w' = trace w /\ inputs w' = r.
Proof.
  intros Hin Hit Hrun Hse.
  destruct (loop_key_left f m w r l0 Hin Hit Hrun Hse) as (w' & E & Hn & Hk & Ht & Hi & _).
  exists w'. rewrite Hn. repeat split; assumption.
Qed.

Lemma loop_blocked f m w :
  inputs w = [] -> running (store w m) = true -> should_exit (store w m) = false ->
  loop (S (S f)) m w = Blocked w.
Proof.
  intros Hin Hrun Hse. cbn [loop process_user_input]. cbv [bind get_node getch].
  rewrite Hrun, Hse. cbn [andb negb]. cbv beta iota. rewrite Hin. reflexivity.
Qed.

Lemma main_loop_child f C w l0 :
  items (store w C) = l0 ++ [ExitEntry] -> should_exit (store w C) = false ->
  (inputs w = [] -> exists wb, main_loop (S (S (S (S (S f))))) C w = Blocked wb
     /\ currently_active_menu wb = Some C /\ running (store wb C) = true
     /\ (forall k, k <> C -> store wb k = store w k))
  /\ (forall r, inputs w = Key KEY_LEFT :: r ->
     exists w', main_loop (S (S (S (S (S f))))) C w = Ok tt w' /\ inputs w' = r
     /\ should_exit (store w' C) = true
     /\ items (store w' C) = l0 ++ [ExitEntry]
     /\ selected_option (store w' C) = Z.of_nat (List.length l0)
     /\ screen (store w' C) <> None
     /\ previous_active_menu (store w' C) = previous_active_menu (store w C)
     /\ (forall k, k <> C -> store w' k = store w k)).
Proof.
  intros Hit Hse. split; [intros Hin|intros r Hin].
  all: cbn [main_loop]; cbv [bind getmaxyx get_node put_node emit modify_node set_active ret].
  all: cbn -[upd draw loop].
  all: match goal with |- context [draw ?c0 ?W] =>
         destruct (draw_spec c0 W (Z.of_nat (List.length (items (store w C))) + 6, snd (stdscr_yx w)))
           as (w1 & Hd & Hk & (y & x & t & Hr) & (E1 & E2 & E3 & E4) & _);
         [cbn -[upd]; rewrite !upd_eq; reflexivity
         |cbn -[upd]; rewrite !upd_eq; cbn; rewrite Hit; destruct l0; discriminate
         |rewrite Hd] end.
  all: cbn -[upd] in Hk, Hr, E1, E2, E3, E4; rewrite !upd_eq in Hr; cbn -[upd] in Hr.
  all: cbn -[upd loop].
  all: assert (Hk' : forall k, k <> C -> store w1 k = store w k)
         by (intros k Hkc; rewrite Hk by exact Hkc; rewrite !upd_neq by exact Hkc; reflexivity).
  - rewrite loop_blocked;
      [|cbn; rewrite E3; exact Hin|cbn -[upd]; rewrite upd_eq; reflexivity
       |cbn -[upd]; rewrite upd_eq, Hr; exact Hse].
    eexists. split; [reflexivity|]. cbn -[upd]. split; [reflexivity|].
    rewrite upd_eq. split; [reflexivity|].
    intros k Hkc. rewrite upd_neq by exact Hkc. apply Hk', Hkc.
  - match goal with |- context [loop _ _ ?W] =>
      destruct (loop_key_left f C W r l0) as (w2 & Hl & Hn & Hk2 & _ & Hi2 & _);
      [cbn; rewrite E3; exact Hin
      |cbn -[upd]; rewrite upd_eq, Hr; exact Hit
      |cbn -[upd]; rewrite upd_eq; reflexivity
      |cbn -[upd]; rewrite upd_eq, Hr; exact Hse|rewrite Hl] end.
    exists w2. split; [reflexivity|]. split; [exact Hi2|].
    rewrite Hn. cbn -[upd]. rewrite upd_eq, Hr. cbn.
    split; [reflexivity|]. split; [exact Hit|]. split; [reflexivity|]. split; [discriminate|].
    split; [reflexivity|].
    intros k Hkc. rewrite Hk2 by exact Hkc. cbn -[upd]. rewrite upd_neq by exact Hkc. apply Hk', Hkc.
Qed.

Lemma wrap_start_child f C w l0 :
  items (store w C) = l0 ++ [ExitEntry] -> should_exit (store w C) = false ->
  (inputs w = [] -> exists wb, wrap_start (S (S (S (S (S (S f)))))) C w = Blocked wb
     /\ currently_active_menu wb = Some C /\ running (store wb C) = true
     /\ (forall k, k <> C -> store wb k = store w k))
  /\ (forall r, inputs w = Key KEY_LEFT :: r ->
     exists w', wrap_start (S (S (S (S (S (S f)))))) C w = Ok tt w' /\ inputs w' = r
     /\ should_exit (store w' C) = true
     /\ Py.getitem (items (store w' C)) (selected_option (store w' C)) = Some ExitEntry
     /\ currently_active_menu w' = previous_active_menu (store w C)
     /\ (forall k, k <> C -> store w' k = store w k)).
Proof.
  intros Hit Hse. split; [intros Hin|intros r Hin].
  all: cbn [wrap_start]; cbv [bind get_node emit].
  all: destruct (parent (store w C)); cbv beta iota.
  all: match goal with |- context [main_loop ?g ?c0 ?W] =>
         destruct (main_loop_child f c0 W l0) as [HB HL]; [exact Hit|exact Hse|] end.
  all: cbn [store inputs] in HB, HL.
  1,2: destruct (HB Hin) as (wb & E & Ha & Hrun & Hk); rewrite E;
       exists wb; split; [reflexivity|]; split; [exact Ha|]; split; [exact Hrun|exact Hk].
  all: destruct (HL r Hin) as (w' & E & Hi & Hx & Hit' & Hsel & Hsc & Hpa & Hk); rewrite E.
  all: cbv [set_active clear_screen bind get_node emit]; cbn -[Py.getitem].
  all: destruct (screen (store w' C)); [|congruence]; cbn -[Py.getitem].
  all: eexists; split; [reflexivity|]; cbn -[Py.getitem].
  all: split; [exact Hi|]; split; [exact Hx|].
  all: split; [rewrite Hit', Hsel; apply getitem_last|]; split; [exact Hpa|exact Hk].
Qed.

Lemma start_child_runs f C w :
  items (store w C) <> [] -> show_exit_option (store w C) = true ->
  (inputs w = [] -> exists wb, start (S (S (S (S (S (S (S f))))))) C None w = Blocked wb
     /\ currently_active_menu wb = Some C /\ running (store wb C) = true
     /\ (forall k, k <> C -> store wb k = store w k))
  /\ (forall r, inputs w = Key KEY_LEFT :: r ->
     exists w', start (S (S (S (S (S (S (S f))))))) C None w = Ok tt w' /\ inputs w' = r
     /\ should_exit (store w' C) = true
     /\ Py.getitem (items (store w' C)) (selected_option (store w' C)) = Some ExitEntry
     /\ currently_active_menu w' = currently_active_menu w
     /\ (forall k, k <> C -> store w' k = store w k)).
Proof.
  intros Hne Hsx.
  destruct (exists_last Hne) as (l & e & Hl).
  cbn [start]. cbv [bind get_active modify_node get_node put_node set_active ret].
  cbn -[upd add_exit wrap_start]. rewrite !upd_eq. cbn -[upd add_exit wrap_start].
  rewrite Hsx.
  match goal with |- context [add_exit C ?W] =>
    rewrite (add_exit_snoc C W l e) by (cbn -[upd]; rewrite upd_eq; exact Hl) end.
  destruct (is_exit e) eqn:He;
    [destruct e; [|discriminate]; set (l0 := l) | set (l0 := l ++ [e])];
    cbn -[upd wrap_start].
  all: match goal with |- context [wrap_start ?g ?c0 ?W] => set (W0 := W) end.
  all: assert (Hi0 : items (store W0 C) = l0 ++ [ExitEntry])
         by (unfold W0; cbn -[upd]; rewrite !upd_eq; cbn; rewrite ?Hl; reflexivity).
  all: assert (Hs0 : should_exit (store W0 C) = false)
         by (unfold W0; cbn -[upd]; rewrite !upd_eq; reflexivity).
  all: assert (Hp0 : previous_active_menu (store W0 C) = currently_active_menu w)
         by (unfold W0; cbn -[upd]; rewrite !upd_eq; reflexivity).
  all: assert (Hk0 : forall k, k <> C -> store W0 k = store w k)
         by (intros k Hkc; unfold W0; cbn -[upd]; rewrite !upd_neq by exact Hkc; reflexivity).
  all: assert (In0 : inputs W0 = inputs w) by reflexivity.
  all: destruct (wrap_start_child f C W0 l0 Hi0 Hs0) as [HB HL]; rewrite In0, Hp0 in *.
  all: split; [intros Hin|intros r Hin].
  1,3: destruct (HB Hin) as (wb & E & Ha & Hrun & Hk); rewrite E;
       exists wb; split; [reflexivity|]; split; [exact Ha|]; split; [exact Hrun|];
       intros k Hkc; rewrite Hk, Hk0 by exact Hkc; reflexivity.
  all: destruct (HL r Hin) as (w' & E & Hi & Hx & Hg & Ha & Hk); rewrite E;
       exists w'; split; [reflexivity|]; split; [exact Hi|]; split; [exact Hx|];
       split; [exact Hg|]; split; [exact Ha|];
       intros k Hkc; rewrite Hk, Hk0 by exact Hkc; reflexivity.
Qed.

(** C6: menu [P] selects its SubmenuOption (cursor [i]) leading to menu
    [C], which has options and shows its exit item, and [P] is not
    reachable back from [C].  Focus moves to [C]: [start] saves the active
    menu, [C]'s loop runs and, with no input left, the selection of [P]
    waits inside it, with [C] the active menu.  After KEY_LEFT in [C]
    selects its exit item, control returns to [P]: [_wrap_start] has
    restored the active menu saved by [start], and [P]'s cursor and
    recorded selection are [i], as before the descent.  Every run of the
    selection that returns leaves [P]'s cursor and recorded selection so. *)
Theorem submenu_return_restores_cursor f P C it w sp :
  ~ reach w C P -> screen (store w P) = Some sp -> 0 <= current_option (store w P) ->
  Py.getitem (items (store w P)) (current_option (store w P)) = Some (Opt it) ->
  item_kind it = KSubmenu C -> items (store w C) <> [] -> show_exit_option (store w C) = true ->
  (inputs w = [] ->
   exists wb, select (10 + f) P w = Blocked wb
     /\ currently_active_menu wb = Some C /\ running (store wb C) = true
     /\ current_option (store wb P) = current_option (store w P))
  /\ (forall r, inputs w = Key KEY_LEFT :: r ->
   exists w', select (10 + f) P w = Ok tt w' /\ inputs w' = r
     /\ should_exit (store w' C) = true
     /\ Py.getitem (items (store w' C)) (selected_option (store w' C)) = Some ExitEntry
     /\ currently_active_menu w' = currently_active_menu w
     /\ current_option (store w' P) = current_option (store w P)
     /\ selected_option (store w' P) = current_option (store w P))
  /\ (forall fuel w', select fuel P w = Ok tt w' ->
      current_option (store w' P) = current_option (store w P)
      /\ selected_option (store w' P) = current_option (store w P)).
Proof.
  intros Hnr Hs Hc0 Hit Hkd HneC HsxC.
  assert (Hc : forall fuel w', select fuel P w = Ok tt w' ->
      current_option (store w' P) = current_option (store w P)
      /\ selected_option (store w' P) = current_option (store w P))
    by (intros fuel w' E; apply (select_submenu_keeps_cursor fuel P C it w w' Hit);
        [unfold submenu_of; rewrite Hkd; reflexivity|exact Hnr|exact E]).
  assert (HCP : C <> P) by (intros ->; apply Hnr, reach_here).
  assert (HneP : items (store w P) <> []).
  { intros He. rewrite He in Hit. unfold Py.getitem in Hit.
    rewrite (proj2 (Z.ltb_ge _ _) Hc0) in Hit. destruct (Z.to_nat _); discriminate. }
  destruct it as [t k se]; cbn in Hkd; subst k.
  split; [intros Hin|split; [intros r Hin|exact Hc]].
  2: enough (H : exists w', select (10 + f) P w = Ok tt w' /\ inputs w' = r
       /\ should_exit (store w' C) = true
       /\ Py.getitem (items (store w' C)) (selected_option (store w' C)) = Some ExitEntry
       /\ currently_active_menu w' = currently_active_menu w)
       by (destruct H as (w' & E & H1 & H2 & H3 & H4); destruct (Hc _ _ E) as [H5 H6];
           exists w'; repeat split; assumption).
  all: change (10 + f)%nat with (S (S (S (S (S (S (S (S (S (S f)))))))))).
  all: cbn [select]; cbv [bind get_node put_node].
  all: match goal with |- context [selected_entry ?p0 ?W] => set (W1 := W) end.
  all: assert (HP1 : store W1 P = set_selected_option (store w P) (current_option (store w P)))
    by (unfold W1; cbn -[upd]; apply upd_eq).
  all: rewrite (selected_entry_ok P W1 (Opt (mkItem t (KSubmenu C) se)));
    [|rewrite HP1; exact HneP|rewrite HP1; cbn; lia|rewrite HP1; exact Hit].
  all: assert (HC1 : store W1 C = store w C) by (unfold W1; cbn -[upd]; apply upd_neq, HCP).
  all: cbv [set_up]; cbn [item_kind]; cbv [clear_screen bind get_node emit].
  all: cbn [store stdscr_yx trace inputs version currently_active_menu].
  all: rewrite HP1; cbn [screen set_selected_option]; rewrite Hs; cbv beta iota.
  all: match goal with |- context [selected_entry ?p0 ?W] =>
         rewrite (selected_entry_ok p0 W (Opt (mkItem t (KSubmenu C) se)));
         [|cbn [store]; rewrite HP1; exact HneP|cbn [store]; rewrite HP1; cbn; lia
          |cbn [store]; rewrite HP1; exact Hit] end.
  all: cbn [action item_kind].
  all: match goal with |- context [start ?g ?c0 None ?W] => set (W2 := W) end.
  all: assert (HP2 : store W2 P = store W1 P) by reflexivity.
  all: assert (HC2 : store W2 C = store w C) by exact HC1.
  all: assert (In2 : inputs W2 = inputs w) by reflexivity.
  all: assert (Ac2 : currently_active_menu W2 = currently_active_menu w) by reflexivity.
  all: assert (HPC : P <> C) by (intros H; apply HCP; symmetry; exact H).
  all: destruct (start_child_runs (S f) C W2) as [HB HL];
         [rewrite HC2; exact HneC|rewrite HC2; exact HsxC|].
  - destruct (HB (eq_trans In2 Hin)) as (wb & E & Ha & Hrun & Hk). rewrite E.
    exists wb. split; [reflexivity|]. split; [exact Ha|]. split; [exact Hrun|].
    rewrite (Hk P HPC), HP2, HP1. reflexivity.
  - destruct (HL r (eq_trans In2 Hin)) as (w3 & E & Hi3 & Hx3 & Hg3 & Ha3 & Hk3). rewrite E.
    assert (HP3 : store w3 P = set_selected_option (store w P) (current_option (store w P)))
      by (rewrite (Hk3 P HPC), HP2, HP1; reflexivity).
    assert (HC3 : forall w4, store w4 = store w3 -> selected_entry P w4 = Ok (Opt (mkItem t (KSubmenu C) se)) w4)
      by (intros w4 Hw4; apply selected_entry_ok; rewrite Hw4, HP3;
          [exact HneP|cbn; lia|exact Hit]).
    rewrite (HC3 w3 eq_refl).
    cbv [clean_up release]; cbn [item_kind]; cbv [clear_screen bind get_node emit].
    cbn [store stdscr_yx trace inputs version currently_active_menu].
    rewrite HP3; cbn [screen set_selected_option]; rewrite Hs; cbv beta iota.
    cbn [store stdscr_yx trace inputs version currently_active_menu].
    rewrite HC3 by reflexivity.
    cbv [get_return bind get_node ret modify_node put_node].
    cbn [store stdscr_yx trace inputs version currently_active_menu].
    rewrite selected_entry_ok with (e := Opt (mkItem t (KSubmenu C) se));
      [|cbn [store]; rewrite upd_eq, HP3; exact HneP|cbn [store]; rewrite upd_eq, HP3; cbn; lia
       |cbn [store]; rewrite upd_eq, HP3; exact Hit].
    cbn [store stdscr_yx trace inputs version currently_active_menu].
    rewrite !upd_eq, HP3. cbn [should_exit set_should_exit entry_should_exit item_should_exit].
    destruct se; cbn [negb].
    + eexists. split; [reflexivity|]. cbn [store stdscr_yx trace inputs version currently_active_menu].
      rewrite !upd_neq by exact HCP.
      split; [exact Hi3|]. split; [exact Hx3|]. split; [exact Hg3|]. rewrite Ha3. exact Ac2.
    + match goal with |- context [draw P ?W] =>
        destruct (draw_spec P W sp) as (w4 & Hd & Hk4 & _ & (_ & E2 & E3 & _) & _);
        [cbn [store]; rewrite !upd_eq, ?HP3; exact Hs
        |cbn [store]; rewrite !upd_eq, ?HP3; exact HneP|rewrite Hd] end.
      exists w4. split; [reflexivity|].
      cbn [store stdscr_yx trace inputs version currently_active_menu] in E2, E3.
      rewrite (Hk4 C HCP). cbn [store]. rewrite !upd_neq by exact HCP.
      split; [rewrite E3; exact Hi3|]. split; [exact Hx3|]. split; [exact Hg3|].
      rewrite E2, Ha3. exact Ac2.
Qed.

(** X13: a key that is neither a digit 1-9 nor one of the bound keys only
    consumes the input: the menus and the recorded calls are unchanged. *)
Theorem unbound_key_ignored f m w r k :
  inputs w = Key k :: r -> ~ (ord_1 <= k <= ord_9) ->
  ~ In k [KEY_DOWN; KEY_UP; KEY_RIGHT; KEY_LEFT; KEY_RESIZE; ord_newline] ->
  process_user_input (S f) m w =
  Ok k (mkWorld (store w) (stdscr_yx w) (currently_active_menu w) (trace w) r (version w)).
Proof.
  intros Hin Hd Hk. cbn [process_user_input]. cbv [bind getch]. rewrite Hin.
  cbn -[go_to go_down go_up draw select main_loop Z.of_nat Py.ord Py.str_int].
  rewrite go_to_max_ok by lia.
  remember (48 + Z.min 9 (Z.of_nat (List.length (items (store w m))))) as mx eqn:Hmx.
  cbv beta iota.
  replace ((ord_1 <=? k) && (k <=? mx)) with false
    by (symmetry; apply andb_false_iff; unfold ord_1, ord_9 in *;
        destruct (Z.leb_spec 49 k); [right; apply Z.leb_gt; lia|left; reflexivity]).
  simpl in Hk.
  replace (k =? KEY_DOWN) with false by (symmetry; apply Z.eqb_neq; intros ->; apply Hk; tauto).
  replace (k =? KEY_UP) with false by (symmetry; apply Z.eqb_neq; intros ->; apply Hk; tauto).
  replace (k =? KEY_RIGHT) with false by (symmetry; apply Z.eqb_neq; intros ->; apply Hk; tauto).
  replace (k =? KEY_LEFT) with false by (symmetry; apply Z.eqb_neq; intros ->; apply Hk; tauto).
  replace (k =? KEY_RESIZE) with false by (symmetry; apply Z.eqb_neq; intros ->; apply Hk; tauto).
  replace (k =? ord_newline) with false by (symmetry; apply Z.eqb_neq; intros ->; apply Hk; tauto).
  reflexivity.
Qed.

(** ** Returned values *)

Lemma pres_bind {A B} (c : M A) (k : A -> M B) :
  pres c -> (forall a, pres (k a)) -> pres (bind c k).
Proof.
  intros Hc Hk w b w2 H0 H. destruct (bind_ok _ _ _ _ _ H) as (a & w1 & E1 & E2).
  exact (Hk a w1 b w2 (Hc w a w1 H0 E1) E2).
Qed.

Lemma pres_pure {A} (c : M A) :
  (forall w a w', c w = Ok a w' -> store w' = store w) -> pres c.
Proof. intros H w a w' H0 E k. rewrite (H w a w' E). apply H0. Qed.

Lemma pres_upd w m n : no_returns w -> returned_value n = None ->
  forall st y i o v, no_returns (mkWorld (upd (store w) m n) st y i o v).
Proof. intros H0 Hn st y i o v k. simpl. unfold upd. destruct (Nat.eqb k m); auto. Qed.

Lemma pres_ret {A} (a : A) : pres (ret a).
Proof. apply pres_pure. intros w b w' E. now injection E as _ <-. Qed.

Lemma pres_raise {A} e : pres (@raise A e).
Proof. intros w a w' _ E. discriminate. Qed.

Lemma pres_emit o : pres (emit o).
Proof. apply pres_pure. intros w b w' E. now injection E as _ <-. Qed.

Lemma pres_get_node m : pres (get_node m).
Proof. apply pres_pure. intros w b w' E. now injection E as _ <-. Qed.

Lemma pres_getmaxyx : pres getmaxyx.
Proof. apply pres_pure. intros w b w' E. now injection E as _ <-. Qed.

Lemma pres_get_version : pres get_version.
Proof. apply pres_pure. intros w b w' E. now injection E as _ <-. Qed.

Lemma pres_get_active : pres get_active.
Proof. apply pres_pure. intros w b w' E. now injection E as _ <-. Qed.

Lemma pres_set_active a : pres (set_active a).
Proof. apply pres_pure. intros w b w' E. now injection E as _ <-. Qed.

Lemma pres_getch : pres getch.
Proof.
  apply pres_pure. intros w b w' E. unfold getch in E.
  destruct (inputs w) as [|[c|y x|res] r]; try discriminate; now injection E as _ <-.
Qed.

Lemma pres_read_search : pres read_search.
Proof.
  apply pres_pure. intros w b w' E. unfold read_search in E.
  destruct (inputs w) as [|[c|y x|res] r]; try discriminate; now injection E as _ <-.
Qed.

Lemma pres_get_devices res : pres (get_devices res).
Proof.
  apply pres_pure. intros w b w' E. unfold get_devices, raise, ret in E.
  destruct res as [data|]; [destruct (format_devices data)|]; try discriminate.
  now injection E as _ <-.
Qed.

Lemma pres_get_put {A} m (F : jumpbox -> jumpbox) (K : jumpbox -> M A) :
  (forall n, returned_value (F n) = returned_value n) -> (forall n, pres (K n)) ->
  pres (n <- get_node m ;; put_node m (F n) ;; K n).
Proof.
  intros HF HK w a w' H0 E. cbv [bind get_node put_node] in E.
  eapply HK; [|exact E]. apply pres_upd; [exact H0|]. rewrite HF. apply H0.
Qed.

Lemma pres_modify m (F : jumpbox -> jumpbox) :
  (forall n, returned_value (F n) = returned_value n) -> pres (modify_node m F).
Proof.
  intros HF w a w' H0 E. cbv [modify_node bind get_node put_node] in E.
  injection E as _ <-. apply pres_upd; [exact H0|]. rewrite HF. apply H0.
Qed.

Lemma pres_draw m : pres (draw m).
Proof.
  intros w [] w' H0 E. destruct (draw_ok_inv m w w' E) as (sc & Hs & Hne).
  destruct (draw_spec m w sc Hs Hne) as (w'' & Hd & Hk & (y & x & t & Hr) & _).
  rewrite E in Hd. injection Hd as <-. intros k.
  destruct (Nat.eq_dec k m) as [->|Hne'].
  - rewrite Hr. apply H0.
  - rewrite Hk by exact Hne'. apply H0.
Qed.

Lemma pres_clear_screen p : pres (clear_screen p).
Proof.
  apply pres_pure. intros w b w' E. cbv [clear_screen bind get_node emit raise] in E.
  destruct (screen (store w p)); [now injection E as _ <-|discriminate].
Qed.

Lemma pres_add_exit m : pres (add_exit m).
Proof.
  intros w a w' H0 E. cbv [add_exit bind get_node put_node ret] in E.
  destruct (last_entry (items (store w m))) as [e|]; [destruct (is_exit e)|].
  - now injection E as _ <-.
  - injection E as _ <-. apply pres_upd; [exact H0|apply H0].
  - now injection E as _ <-.
Qed.

Lemma pres_remove_exit m : pres (remove_exit m).
Proof.
  intros w a w' H0 E. cbv [remove_exit bind get_node put_node ret] in E.
  destruct (last_entry (items (store w m))) as [e|]; [destruct (is_exit e)|].
  - injection E as _ <-. apply pres_upd; [exact H0|apply H0].
  - now injection E as _ <-.
  - now injection E as _ <-.
Qed.

Lemma pres_append_redraw m : pres (append_redraw m).
Proof.
  intros w a w' H0 E. cbv [append_redraw bind get_node put_node emit ret] in E.
  destruct (screen (store w m)) as [[py px]|] eqn:Hs; [|injection E as _ <-; exact H0].
  destruct (py <? _) in E; cbn -[draw upd] in E; (eapply pres_draw; [|exact E]);
    intro k; cbn -[upd]; unfold upd; destruct (Nat.eqb k m); rewrite ?Nat.eqb_refl; apply H0.
Qed.

Lemma pres_append_item m e : pres (append_item m e).
Proof.
  rewrite append_item_split.
  apply pres_bind; [apply pres_remove_exit|intros b].
  apply pres_get_put; [intro; reflexivity|intros n].
  apply pres_bind; [|intros u; apply pres_append_redraw].
  destruct b; [apply pres_bind; [apply pres_add_exit|intros; apply pres_ret]|apply pres_ret].
Qed.

Lemma pres_append_devices c ds : pres (append_devices c ds).
Proof.
  induction ds as [|d ds IH]; cbn [append_devices]; [apply pres_ret|].
  apply pres_bind; [destruct (primary_ip d); [apply pres_ret|apply pres_raise]|intros a].
  apply pres_bind; [apply pres_append_item|intros; exact IH].
Qed.

Lemma pres_selected_entry m : pres (selected_entry m).
Proof. apply pres_pure. intros w b w' E. apply selected_entry_at in E. now destruct E as [-> _]. Qed.

(** [get_return] reads a returned value: in a world without one it gives None. *)
Lemma get_return_none m e w rv w' :
  no_returns w -> get_return m e w = Ok rv w' -> rv = None /\ w' = w.
Proof.
  intros H0 E. destruct e as [|[t [] se]]; cbv [get_return bind get_node ret] in E;
    injection E as <- <-; split; auto.
Qed.

Lemma pres_return_set {A} m e (K : M A) :
  pres K -> pres (rv <- get_return m e ;; modify_node m (fun n => set_returned_value n rv) ;; K).
Proof.
  intros HK w a w' H0 E. destruct (bind_ok _ _ _ _ _ E) as (rv & w1 & E1 & E2).
  destruct (get_return_none m e w rv w1 H0 E1) as [-> ->].
  destruct (bind_ok _ _ _ _ _ E2) as (u & w2 & E3 & E4).
  eapply HK; [|exact E4]. cbv [modify_node bind get_node put_node] in E3.
  injection E3 as _ <-. apply pres_upd; [exact H0|reflexivity].
Qed.

Ltac ps :=
  repeat (cbv zeta; match goal with
  | |- pres (bind (get_node ?m) (fun n => bind (put_node ?m _) _)) =>
      apply pres_get_put; [intro; reflexivity | intro]
  | |- pres (bind (get_return _ _) (fun rv => bind (modify_node _ _) _)) => apply pres_return_set
  | |- pres (bind _ _) => apply pres_bind; [|intro]
  | |- pres (modify_node _ _) => apply pres_modify; intro; reflexivity
  | |- pres (ret _) => apply pres_ret
  | |- pres (raise _) => apply pres_raise
  | |- pres (emit _) => apply pres_emit
  | |- pres (get_node _) => apply pres_get_node
  | |- pres getmaxyx => apply pres_getmaxyx
  | |- pres get_version => apply pres_get_version
  | |- pres get_active => apply pres_get_active
  | |- pres (set_active _) => apply pres_set_active
  | |- pres getch => apply pres_getch
  | |- pres (draw _) => apply pres_draw
  | |- pres (clear_screen _) => apply pres_clear_screen
  | |- pres (add_exit _) => apply pres_add_exit
  | |- pres (remove_exit _) => apply pres_remove_exit
  | |- pres (selected_entry _) => apply pres_selected_entry
  | |- pres (reset_menu _) => unfold reset_menu
  | |- pres read_search => apply pres_read_search
  | |- pres (get_devices _) => apply pres_get_devices
  | |- pres (append_devices _ _) => apply pres_append_devices
  | |- pres (go_to _ _) => unfold go_to
  | |- pres (go_down _) => unfold go_down
  | |- pres (go_up _) => unfold go_up
  | |- pres (release _) => unfold release
  | |- pres (if ?b then _ else _) => destruct b
  | |- pres (match ?x with Some _ => _ | None => _ end) => destruct x
  | |- pres (match ?p with (_, _) => _ end) => destruct p
  end).

Lemma pres_set_up m e : pres (set_up m e).
Proof. destruct e as [|[t [] se]]; cbn [set_up item_kind]; ps. Qed.

Lemma pres_clean_up m e : pres (clean_up m e).
Proof. destruct e as [|[t [] se]]; cbn [clean_up item_kind]; ps. Qed.

Lemma run_pres fuel :
  (forall m se, pres (start fuel m se)) /\
  (forall m, pres (wrap_start fuel m)) /\
  (forall m, pres (main_loop fuel m)) /\
  (forall m, pres (loop fuel m)) /\
  (forall m, pres (process_user_input fuel m)) /\
  (forall m, pres (select fuel m)) /\
  (forall m e, pres (action fuel m e)).
Proof.
  induction fuel as [|f IH].
  - repeat match goal with |- _ /\ _ => split end; intros; hnf; intros; discriminate.
  - destruct IH as (Hstart & Hwrap & Hmain & Hloop & Hproc & Hsel & Hact).
    repeat match goal with |- _ /\ _ => split end.
    all: intros; cbn [start wrap_start main_loop loop process_user_input select action].
    all: repeat progress (ps; try first [apply Hstart | apply Hwrap | apply Hmain | apply Hloop
                                        | apply Hproc | apply Hsel | apply Hact
                                        | apply pres_set_up | apply pres_clean_up]).
    all: match goal with |- pres (match ?e with _ => _ end) =>
           destruct e as [|[t [] se']]; cbn [item_kind]; ps; try apply Hstart end.
Qed.

(** X14: no run of a menu gives any menu a returned value: [select] only
    copies one from a menu (from the submenu, for a SubmenuItem, SitesItem
    or SearchItem), and all start as None. *)
Theorem start_keeps_no_returns fuel m se w w' :
  no_returns w -> start fuel m se w = Ok tt w' -> no_returns w'.
Proof. intros H0 E. destruct (run_pres fuel) as (Hs & _). exact (Hs m se w tt w' H0 E). Qed.

(** ** Frames of a run *)


(** ** Instances of the further properties *)

(** X2: sites with counts 0, 3, 0, 2 lose both empty sites. *)
Lemma format_sites_drops_isolated_empty_witness :
  no_adjacent_empty [site_hq; site_dc1; site_lab; site_dc2] = true /\
  format_sites [site_hq; site_dc1; site_lab; site_dc2] = [site_dc1; site_dc2].
Proof.
  split; [reflexivity|].
  rewrite (format_sites_drops_isolated_empty [site_hq; site_dc1; site_lab; site_dc2]) by reflexivity.
  reflexivity.
Defined.

(** X3: after [DC1], the empty [HQ] is popped at index 1 and the empty
    [Lab] that moves there is kept. *)
Lemma format_sites_skips_next_witness :
  count_devices site_hq = 0 /\
  format_sites_loop 4 1 [site_dc1; site_hq; site_lab; site_dc2] = [site_dc1; site_lab; site_dc2] /\
  format_sites [site_dc1; site_hq; site_lab; site_dc2] = [site_dc1; site_lab; site_dc2].
Proof.
  split; [reflexivity|].
  destruct (format_sites_skips_next [site_dc1] site_hq site_lab [site_dc2]
              ltac:(vm_compute; discriminate)) as [H1 H2].
  split.
  - exact (H1 4%nat ltac:(simpl; lia)).
  - apply H2. constructor; [vm_compute; reflexivity|constructor].
Defined.

(** X4: ["10.0.0.1/24"] becomes ["10.0.0.1"]. *)
Lemma clean_address_strips_prefix_length_witness :
  clean_address "10.0.0.1/24" = "10.0.0.1"%string.
Proof. exact (clean_address_strips_prefix_length "10.0.0.1" "24" ltac:(discriminate) eq_refl). Defined.

(** X5: an address without a prefix length is kept. *)
Lemma clean_address_no_slash_witness : clean_address "10.0.0.1" = "10.0.0.1"%string.
Proof. exact (clean_address_no_slash "10.0.0.1" eq_refl). Defined.

(** X6: ["sw-1"] becomes ["sw"]; ["sw-12"] is kept. *)
Lemma clean_name_member_suffix_witness :
  clean_name "sw-1" = "sw"%string /\ clean_name "sw-12" = "sw-12"%string.
Proof. exact (clean_name_member_suffix "sw" "1" "1" "2" eq_refl eq_refl eq_refl). Defined.

(** X7: one device without a primary IP fails the whole list. *)
Lemma format_devices_null_ip_witness :
  format_devices [dev_sw; dev_noip] = inl TypeError.
Proof. apply (format_devices_null_ip [dev_sw; dev_noip] dev_noip); [simpl; auto | reflexivity]. Defined.

(** X8: the switch member becomes ["sw"] at ["10.0.0.1"]. *)
Lemma format_devices_each_witness :
  format_devices [dev_sw] = inr [mkDevice "sw" (Some "10.0.0.1"%string)].
Proof.
  rewrite (format_devices_each [dev_sw]); [reflexivity|].
  intros d [<-|[]]. discriminate.
Defined.

(** X9: appending to the empty menu 2 gives it one option and no exit item. *)
Lemma append_item_without_exit_witness :
  exists w', append_item 2 (Opt item_a) w_main = Ok tt w' /\ items (store w' 2) = [Opt item_a].
Proof.
  destruct (append_item_without_exit 2 w_main (Opt item_a)) as (w' & E & Hi & _);
    [simpl; discriminate|].
  exists w'. split; [exact E|]. rewrite Hi. reflexivity.
Defined.

(** X10: a fourth option grows the pad of menu 0 from 9 to 10 rows. *)
Lemma append_item_grows_pad_witness :
  exists w', append_item 0 (Opt item_b) w_main = Ok tt w' /\ screen (store w' 0) = Some (10, 80).
Proof.
  destruct (append_item_grows_pad 0 w_main (Opt item_b) 9 80) as (w' & E & Hs); [reflexivity|].
  exists w'. split; [exact E|]. rewrite Hs.
  replace w' with (final_world (append_item 0 (Opt item_b) w_main) w_main) by (rewrite E; reflexivity).
  vm_compute. reflexivity.
Defined.

(** X11: menu 0 drawn before [_main_loop] stored a terminal width: the
    version lands at column -5. *)
Lemma draw_writes_layout_witness :
  exists w', draw 0 w_main = Ok tt w' /\
  trace w' = [Border; AddStr 2 2 "Main" A_UNDERLINE; AddStr 5 4 "1 - Sites" HIGHLIGHT;
              AddStr 6 4 "2 - A" A_NORMAL; AddStr 7 4 "3 - Exit" A_NORMAL;
              AddStr 7 (-5) "1.0" A_BOLD; PadRefresh 0 0 0 0 23 79].
Proof.
  destruct (draw_writes_layout 0 w_main (9, 80)) as (w' & E & Ht); [reflexivity|simpl; discriminate|].
  exists w'. split; [exact E|]. rewrite Ht. vm_compute. reflexivity.
Defined.

(** X12: LEFT on the running menu 0 selects its exit item and ends its loop. *)
Lemma key_left_leaves_menu_witness :
  exists w', loop 4 0 w_left = Ok tt w' /\ should_exit (store w' 0) = true
    /\ current_option (store w' 0) = 2.
Proof.
  destruct (key_left_leaves_menu 0 0 w_left [] [Opt item_sub; Opt item_a])
    as (w' & E & Hx & Hc & _); [reflexivity|reflexivity|reflexivity|reflexivity|].
  exists w'. split; [exact E|]. split; [exact Hx|exact Hc].
Defined.

(** C6: on menu 0, option 0 leads to menu 1.  With no input, the selection
    waits in menu 1; with LEFT waiting, menu 1 selects its exit item and
    menu 0 gets control back with its cursor and selection at 0. *)
Lemma submenu_return_restores_cursor_witness :
  (exists wb, select 10 0 w_main = Blocked wb /\ currently_active_menu wb = Some 1%nat)
  /\ (exists w', select 10 0 w_nav = Ok tt w' /\ currently_active_menu w' = None
        /\ current_option (store w' 0) = 0 /\ selected_option (store w' 0) = 0).
Proof.
  assert (Hl : forall w, store w 1%nat = child_node -> ~ reach w 1 0).
  { intros w Hw Hr. apply reach_leaf in Hr; [discriminate|].
    intros it Hin. rewrite Hw in Hin. simpl in Hin.
    destruct Hin as [H|[H|[]]]; [injection H as <-; reflexivity|discriminate]. }
  split.
  - destruct (submenu_return_restores_cursor 0 0 1 item_sub w_main (9, 80)) as [HB _];
      [apply Hl; reflexivity|reflexivity|simpl; lia|reflexivity|reflexivity
      |simpl; discriminate|reflexivity|].
    destruct (HB eq_refl) as (wb & E & Ha & _). exists wb. split; [exact E|exact Ha].
  - destruct (submenu_return_restores_cursor 0 0 1 item_sub w_nav (9, 80)) as [_ [HL _]];
      [apply Hl; reflexivity|reflexivity|simpl; lia|reflexivity|reflexivity
      |simpl; discriminate|reflexivity|].
    destruct (HL [] eq_refl) as (w' & E & _ & _ & _ & Ha & Hc & Hs).
    exists w'. split; [exact E|]. split; [exact Ha|]. split; [exact Hc|exact Hs].
Defined.

(** X13: the key 'q' is read and ignored. *)
Lemma unbound_key_ignored_witness :
  process_user_input 1 0 w_quit = Ok 113 (sample_world main_node (24, 80) []).
Proof.
  rewrite (unbound_key_ignored 0 0 w_quit [] 113); [reflexivity|reflexivity| |].
  - unfold ord_1, ord_9. lia.
  - unfold KEY_DOWN, KEY_UP, KEY_RIGHT, KEY_LEFT, KEY_RESIZE, ord_newline. simpl. lia.
Defined.

(** X14: a run through the submenu "Sites" and back, and a run of a search
    that fills menu 1 with a device option, leave no returned value. *)
Lemma start_keeps_no_returns_witness :
  start 20 0 None w_deep = Ok tt (final_world (start 20 0 None w_deep) w_deep) /\
  no_returns (final_world (start 20 0 None w_deep) w_deep) /\
  start 30 0 None w_search = Ok tt (final_world (start 30 0 None w_search) w_search) /\
  no_returns (final_world (start 30 0 None w_search) w_search).
Proof.
  assert (H0 : no_returns w_deep) by (intros [|[|k]]; reflexivity).
  assert (H1 : no_returns w_search) by (intros [|[|k]]; reflexivity).
  assert (E : start 20 0 None w_deep = Ok tt (final_world (start 20 0 None w_deep) w_deep))
    by (vm_compute; reflexivity).
  assert (E1 : start 30 0 None w_search = Ok tt (final_world (start 30 0 None w_search) w_search))
    by (vm_compute; reflexivity).
  split; [exact E|]. split; [exact (start_keeps_no_returns 20 0 None w_deep _ H0 E)|].
  split; [exact E1|]. exact (start_keeps_no_returns 30 0 None w_search _ H1 E1).
Defined.

